(** * qtrangeslider/_style.py: style resolution and stylesheet extraction

    A shallow embedding of [src/qtrangeslider/_style.py]: the
    [RangeSliderStyle] record with its accessors [brush], [offset] and
    [thickness], the platform presets and their selection, the two
    gradient patterns with [parse_color], and
    [update_styles_from_stylesheet].

    Conventions of the embedding.
    - A Python [str] is a [string]; its 8-bit characters stand for the code
      points 0..255.
    - A Python number ([int], or [float] where the code makes one) is an
      exact rational of [Q]; the code only tests numbers against zero, adds
      and subtracts them, and hands them on.  Numeric equality is [==].
    - [None] is the [None] of [option].
    - A raised exception is the [Raise] of [result]; code that also mutates
      objects returns the store it leaves behind next to its outcome.
    - Qt objects ([QColor], [QLinearGradient], [QRadialGradient]) live in a
      store and are held by reference, so that one object assigned to
      several fields stays one object. *)

From Stdlib Require Import Bool List String Ascii ZArith QArith Lia.
Import ListNotations.

Local Open Scope string_scope.
Local Open Scope Z_scope.

(* ================================================================== *)
(** ** Exceptions and outcomes *)

Inductive exn : Type :=
| AttributeError
| ValueError
| TypeError
| OSError.

Inductive result (A : Type) : Type :=
| Ok (a : A)
| Raise (e : exn).

Arguments Ok {A} a.
Arguments Raise {A} e.

(** Stateful, fallible code over a store [S]: the outcome and the store
    left behind (kept on a raise as well: what was mutated before the
    exception stays mutated). *)
Definition M (S A : Type) : Type := S -> result A * S.

Definition ret {S A : Type} (a : A) : M S A := fun s => (Ok a, s).

Definition raise {S A : Type} (e : exn) : M S A := fun s => (Raise e, s).

Definition bind {S A B : Type} (m : M S A) (f : A -> M S B) : M S B :=
  fun s =>
    match m s with
    | (Ok a, s') => f a s'
    | (Raise e, s') => (Raise e, s')
    end.

Notation "x <- m ;; k" := (bind m (fun x => k))
  (at level 61, m at next level, right associativity).
Notation "m ;;; k" := (bind m (fun _ => k))
  (at level 61, right associativity).

(* ================================================================== *)
(** ** Strings *)

Module Str.

Definition code (c : ascii) : N := N_of_ascii c.

Fixpoint take (n : nat) (s : string) : string :=
  match n, s with
  | S n', String c s' => String c (take n' s')
  | _, _ => EmptyString
  end.

Fixpoint drop (n : nat) (s : string) : string :=
  match n, s with
  | S n', String _ s' => drop n' s'
  | _, _ => s
  end.

Fixpoint starts_with (p s : string) : bool :=
  match p, s with
  | EmptyString, _ => true
  | String a p', String b s' => Ascii.eqb a b && starts_with p' s'
  | String _ _, EmptyString => false
  end.

(** The text between two suffixes of one string: what was consumed on
    the way from [s] to its suffix [rest]. *)
Definition consumed (s rest : string) : string :=
  take (String.length s - String.length rest) s.

(** [str.isspace] on one character, restricted to code points below 256:
    TAB, LF, VT, FF, CR, FS, GS, RS, US, SPACE, NEL and NBSP. *)
Definition isspace (c : ascii) : bool :=
  let n := code c in
  ((9 <=? n) && (n <=? 13) || (28 <=? n) && (n <=? 32)
   || (n =? 133) || (n =? 160))%N.

Definition isdigit (c : ascii) : bool :=
  let n := code c in ((48 <=? n) && (n <=? 57))%N.

(** Line boundaries of [str.splitlines] below code point 256:
    LF, VT, FF, CR, FS, GS, RS and NEL; CR LF is one boundary. *)
Definition is_linebreak (c : ascii) : bool :=
  let n := code c in
  ((10 <=? n) && (n <=? 13) || (28 <=? n) && (n <=? 30) || (n =? 133))%N.

Fixpoint all_chars (p : ascii -> bool) (s : string) : bool :=
  match s with
  | EmptyString => true
  | String c s' => p c && all_chars p s'
  end.

Fixpoint rev_onto (acc s : string) : string :=
  match s with
  | EmptyString => acc
  | String c s' => rev_onto (String c acc) s'
  end.

(** [splitlines_from after_cr acc s]: [acc] is the current line,
    reversed; [after_cr] says that the boundary just passed was a CR, so
    that an LF coming next belongs to it.  A line is emitted at each
    boundary; a last line without boundary is emitted only when it is
    not empty, as [str.splitlines] does. *)
Fixpoint splitlines_from (after_cr : bool) (acc s : string) : list string :=
  match s with
  | EmptyString =>
      match acc with
      | EmptyString => []
      | _ => [rev_onto "" acc]
      end
  | String c s' =>
      if after_cr && (code c =? 10)%N then splitlines_from false acc s'
      else if is_linebreak c
           then rev_onto "" acc :: splitlines_from (code c =? 13)%N "" s'
           else splitlines_from false (String c acc) s'
  end.

Definition splitlines (s : string) : list string :=
  splitlines_from false "" s.

End Str.

(* ================================================================== *)
(** ** Regular expressions

    The fragment of Python's [re] that the module's patterns are written
    in, run as [re] runs it: leftmost, by backtracking, every repetition
    greedy.  Repetitions in the source only ever apply to one character
    class, and so do [Star] and [Plus] here. *)

Module Re.

(** What matches one character. *)
Inductive cclass : Type :=
| Chr (c : ascii)                           (* an ordinary character *)
| Digit                                     (* \d *)
| Space                                     (* \s *)
| NotSpace                                  (* \S *)
| Dot                                       (* . (no DOTALL): not LF *)
| NoneOf (cs : list ascii) (spaces : bool). (* [^...], \s inside when [spaces] *)

Definition cmatch (k : cclass) (c : ascii) : bool :=
  match k with
  | Chr a => Ascii.eqb a c
  | Digit => Str.isdigit c
  | Space => Str.isspace c
  | NotSpace => negb (Str.isspace c)
  | Dot => negb (Str.code c =? 10)%N
  | NoneOf cs spaces =>
      negb (existsb (Ascii.eqb c) cs || (spaces && Str.isspace c))
  end.

Inductive regex : Type :=
| Lit (s : string)                  (* a run of ordinary characters *)
| One (k : cclass)                  (* one character of a class *)
| Star (k : cclass)                 (* k*  *)
| Plus (k : cclass)                 (* k+  *)
| Opt (r : regex)                   (* r?  *)
| Group (i : nat) (r : regex)       (* (r), the capturing group number i+1 *)
| Cat (r1 r2 : regex).

(** [m.groups()]: one entry per capturing group, [None] for a group that
    took no part in the match. *)
Definition groups : Type := list (option string).

Fixpoint set_group (i : nat) (v : string) (gs : groups) : groups :=
  match i, gs with
  | O, _ :: gs' => Some v :: gs'
  | S i', g :: gs' => g :: set_group i' v gs'
  | _, [] => []
  end.

Fixpoint ngroups (r : regex) : nat :=
  match r with
  | Lit _ | One _ | Star _ | Plus _ => 0
  | Opt r => ngroups r
  | Group _ r => S (ngroups r)
  | Cat r1 r2 => ngroups r1 + ngroups r2
  end.

Section Exec.
Context {A : Type}.

(** Greedy repetition of a class: take a character when there is one,
    and give it back when the rest of the pattern then fails. *)
Fixpoint star (k : cclass) (cont : string -> option A) (s : string)
  : option A :=
  match s with
  | String c s' =>
      if cmatch k c then
        match star k cont s' with
        | Some a => Some a
        | None => cont s
        end
      else cont s
  | EmptyString => cont s
  end.

(** [exec r gs s cont]: match [r] at the front of [s], then hand the
    groups and the text that is left to [cont]; alternatives are tried
    in [re]'s order and the first that lets [cont] succeed wins. *)
Fixpoint exec (r : regex) (gs : groups) (s : string)
    (cont : groups -> string -> option A) : option A :=
  match r with
  | Lit l =>
      if Str.starts_with l s then cont gs (Str.drop (String.length l) s)
      else None
  | One k =>
      match s with
      | String c s' => if cmatch k c then cont gs s' else None
      | EmptyString => None
      end
  | Star k => star k (cont gs) s
  | Plus k =>
      match s with
      | String c s' => if cmatch k c then star k (cont gs) s' else None
      | EmptyString => None
      end
  | Opt r' =>
      match exec r' gs s cont with
      | Some a => Some a
      | None => cont gs s
      end
  | Group i r' =>
      exec r' gs s
        (fun gs' s' => cont (set_group i (Str.consumed s s') gs') s')
  | Cat r1 r2 =>
      exec r1 gs s (fun gs' s' => exec r2 gs' s' cont)
  end.
End Exec.

(** [pattern.match(s)]: a match at the start of [s]; the result is
    [m.groups()]. *)
Definition match_ (r : regex) (s : string) : option groups :=
  exec r (repeat None (ngroups r)) s (fun gs _ => Some gs).

(** [re.search(pattern, s)]: the match at the leftmost position that has
    one. *)
Fixpoint search (r : regex) (s : string) : option groups :=
  match match_ r s with
  | Some gs => Some gs
  | None =>
      match s with
      | String _ s' => search r s'
      | EmptyString => None
      end
  end.

Fixpoint cat (rs : list regex) : regex :=
  match rs with
  | [] => Lit ""
  | [r] => r
  | r :: rs' => Cat r (cat rs')
  end.

(** [gs[i]] of the tuple [m.groups()]. *)
Definition group (i : nat) (gs : groups) : option string :=
  nth i gs None.

(** [m.groups()[-1]]. *)
Definition last_group (gs : groups) : option string :=
  last gs None.

End Re.

(* ================================================================== *)
(** ** The patterns of the module *)

Import Re.

(** The number of the gradient patterns: digits, an optional point, and
    at least one digit. *)
Definition decimal : regex :=
  cat [Star Digit; Opt (One (Chr ".")); Plus Digit].

(** [qlineargrad_pattern], compiled with [re.X]: the white space of the
    pattern text is not part of the pattern.  Groups: x1, y1, x2, y2,
    stop0, stop1. *)
Definition qlineargrad_pattern : regex :=
  cat [ Lit "qlineargradient(";
        Lit "x1:"; Star Space; Group 0 decimal; Lit ","; Star Space;
        Lit "y1:"; Star Space; Group 1 decimal; Lit ","; Star Space;
        Lit "x2:"; Star Space; Group 2 decimal; Lit ","; Star Space;
        Lit "y2:"; Star Space; Group 3 decimal; Lit ","; Star Space;
        Lit "stop:0"; Star Space; Group 4 (Plus NotSpace); Lit ","; Star Dot;
        Lit "stop:1"; Star Space; Group 5 (Plus NotSpace);
        Lit ")" ].

(** [qradial_pattern], compiled with [re.X].  Groups: cx, cy, radius, fx,
    fy, stop0, stop1. *)
Definition qradial_pattern : regex :=
  cat [ Lit "qradialgradient(";
        Lit "cx:"; Star Space; Group 0 decimal; Lit ","; Star Space;
        Lit "cy:"; Star Space; Group 1 decimal; Lit ","; Star Space;
        Lit "radius:"; Star Space; Group 2 decimal; Lit ","; Star Space;
        Lit "fx:"; Star Space; Group 3 decimal; Lit ","; Star Space;
        Lit "fy:"; Star Space; Group 4 decimal; Lit ","; Star Space;
        Lit "stop:0"; Star Space; Group 5 (Plus NotSpace); Lit ","; Star Dot;
        Lit "stop:1"; Star Space; Group 6 (Plus NotSpace);
        Lit ")" ].

(** The pattern of the fill search: the text Slider::sub-page, an optional
    colon, an optional group of characters that are neither an opening
    brace nor white space, white space, an opening brace, white space, a
    group of one or more characters other than a closing brace, and the
    closing brace.  Groups: orientation, content. *)
Definition sub_page_pattern : regex :=
  cat [ Lit "Slider::sub-page"; Opt (One (Chr ":"));
        Opt (Group 0 (Star (NoneOf ["{"%char] true)));
        Star Space; Lit "{"; Star Space;
        Group 1 (Plus (NoneOf ["}"%char] false)); Lit "}" ].

(** The pattern of a fill declaration: the text background, an optional
    group -color, a colon, white space, and a group of one or more
    characters other than a semicolon. *)
Definition background_pattern : regex :=
  cat [ Lit "background"; Opt (Group 0 (Lit "-color")); Lit ":";
        Star Space; Group 1 (Plus (NoneOf [";"%char] false)) ].

(** The pattern of the groove search for the orientation named [orient]:
    the text Slider::groove: and [orient], white space, an opening brace,
    white space, a group of one or more characters other than a closing
    brace, and the closing brace. *)
Definition groove_pattern (orient : string) : regex :=
  cat [ Lit ("Slider::groove:" ++ orient); Star Space; Lit "{"; Star Space;
        Group 0 (Plus (NoneOf ["}"%char] false)); Lit "}" ].

(** The pattern of a thickness declaration for the property [dim]: the
    text [dim], white space, a colon, white space, and a group of one or
    more digits. *)
Definition dim_pattern (dim : string) : regex :=
  cat [ Lit dim; Star Space; Lit ":"; Star Space; Group 0 (Plus Digit) ].

(* ================================================================== *)
(** ** Python values *)

(** Truth value testing, as [or], [not] and [if] apply it. *)
Class Truthy (A : Type) : Type := truth : A -> bool.

#[global] Instance Truthy_Q : Truthy Q := fun q => negb (Qeq_bool q 0).
#[global] Instance Truthy_Z : Truthy Z := fun z => negb (z =? 0).
#[global] Instance Truthy_string : Truthy string :=
  fun s => negb (String.eqb s "").
#[global] Instance Truthy_option {A : Type} `{Truthy A} : Truthy (option A) :=
  fun o => match o with Some a => truth a | None => false end.

(** [x or y], written [x ||| y] below. *)
Definition py_or {A : Type} `{Truthy A} (x y : A) : A :=
  if truth x then x else y.

Infix "|||" := py_or (at level 50, left associativity).

Definition digit_value (c : ascii) : Z := Z.of_N (Str.code c) - 48.

(** White space for [int]: of the characters below 128 only TAB, LF, VT,
    FF, CR and SPACE, and beyond them every character [str.isspace]
    knows, here NEL and NBSP. *)
Definition int_isspace (c : ascii) : bool :=
  let n := Str.code c in
  ((9 <=? n) && (n <=? 13) || (n =? 32) || (n =? 133) || (n =? 160))%N.

(** The number of decimal digits above which [int] refuses a text, where
    the interpreter has such a limit: its default. *)
Definition int_max_str_digits : nat := 4300.

Fixpoint count_digits (s : string) : nat :=
  match s with
  | EmptyString => O
  | String c s' =>
      if Str.isdigit c then S (count_digits s') else count_digits s'
  end.

(** [int(s)] on a [str], base ten: white space around, an optional sign,
    digits, single underscores between digits, and no more digits than
    the limit. *)
Fixpoint int_digits (acc : Z) (after_digit : bool) (s : string) : option Z :=
  match s with
  | EmptyString => if after_digit then Some acc else None
  | String c s' =>
      if Str.isdigit c then int_digits (10 * acc + digit_value c) true s'
      else if Ascii.eqb c "_" && after_digit then int_digits acc false s'
      else None
  end.

Fixpoint lstrip (s : string) : string :=
  match s with
  | String c s' => if int_isspace c then lstrip s' else s
  | EmptyString => s
  end.

Definition strip (s : string) : string :=
  Str.rev_onto "" (lstrip (Str.rev_onto "" (lstrip s))).

Definition py_int (s : string) : result Z :=
  let body :=
    match strip s with
    | String "+" s' => int_digits 0 false s'
    | String "-" s' => option_map Z.opp (int_digits 0 false s')
    | s' => int_digits 0 false s'
    end in
  match body with
  | Some z =>
      if Nat.leb (count_digits (strip s)) int_max_str_digits then Ok z
      else Raise ValueError
  | None => Raise ValueError
  end.

Definition all_digits (s : string) : bool := Str.all_chars Str.isdigit s.

Fixpoint digits_value (acc : Z) (s : string) : Z :=
  match s with
  | EmptyString => acc
  | String c s' => digits_value (10 * acc + digit_value c) s'
  end.

Fixpoint pow10 (n : nat) : positive :=
  match n with
  | O => 1%positive
  | S n' => (10 * pow10 n')%positive
  end.

(** The text before the first [sep] and, when there is a [sep], the text
    after it: [s.split(sep, maxsplit=1)]. *)
Fixpoint split_once (sep : ascii) (s : string) : string * option string :=
  match s with
  | EmptyString => (EmptyString, None)
  | String c s' =>
      if Ascii.eqb c sep then (EmptyString, Some s')
      else let (a, b) := split_once sep s' in (String c a, b)
  end.

(** [float(s)] on the texts the patterns hand to it: digits with at most
    one point and at least one digit.  Any other text is a [ValueError]
    here; the value is the exact decimal. *)
Definition py_float (s : string) : result Q :=
  match split_once "." s with
  | (a, None) =>
      if all_digits a && negb (String.eqb a "")
      then Ok (inject_Z (digits_value 0 a))
      else Raise ValueError
  | (a, Some b) =>
      if all_digits a && all_digits b && negb (String.eqb (a ++ b) "")
      then Ok (Qred (Qmake (digits_value 0 (a ++ b))
                           (pow10 (String.length b))))
      else Raise ValueError
  end.

(* ================================================================== *)
(** ** Qt objects *)

(** [QColor(name)], and the opacity a later [setAlphaF] gave it. *)
Record QColor : Type := mkQColor {
  color_name : string;
  alphaF : option Q
}.

(** [gradient.setColorAt(pos, color)] keeps a copy of the colour. *)
Definition stops : Type := list (Q * QColor).

(** An object of the store.  Only a [QColor] has a [setAlphaF] method. *)
Inductive qobject : Type :=
| ObjColor (c : QColor)
| ObjLinearGradient (x1 y1 x2 y2 : Q) (st : stops)
| ObjRadialGradient (cx cy radius fx fy : Q) (st : stops).

Definition loc : Type := nat.
Definition heap : Type := list qobject.

(** What a brush or pen field holds: a [str], or a reference to a Qt
    object. *)
Inductive value : Type :=
| VStr (s : string)
| VObj (l : loc).

#[global] Instance Truthy_value : Truthy value :=
  fun v => match v with VStr s => truth s | VObj _ => true end.

Definition alloc (o : qobject) : M heap loc :=
  fun h => (Ok (List.length h), (h ++ [o])%list).

Fixpoint store (l : loc) (o : qobject) (h : heap) : heap :=
  match l, h with
  | O, _ :: h' => o :: h'
  | S l', x :: h' => x :: store l' o h'
  | _, [] => []
  end.

(** [val.setAlphaF(a)]: [val] is whatever the field held, [a] whatever
    the [or] of the two opacities gave.  [None] and the gradients have no
    such method; an opacity of [None] is not a number. *)
Definition setAlphaF (val : option value) (a : option Q) : M heap unit :=
  fun h =>
    match val with
    | Some (VObj l) =>
        match nth_error h l with
        | Some (ObjColor c) =>
            match a with
            | Some q => (Ok tt, store l (ObjColor (mkQColor (color_name c) (Some q))) h)
            | None => (Raise TypeError, h)
            end
        | _ => (Raise AttributeError, h)
        end
    | _ => (Raise AttributeError, h)
    end.

(** [gradient.setColorAt(pos, QColor(name))] on a gradient that has no
    stop at [pos] or after it. *)
Definition setColorAt (l : loc) (pos : Q) (c : QColor) : M heap unit :=
  fun h =>
    match nth_error h l with
    | Some (ObjLinearGradient x1 y1 x2 y2 st) =>
        (Ok tt, store l (ObjLinearGradient x1 y1 x2 y2 (st ++ [(pos, c)])%list) h)
    | Some (ObjRadialGradient cx cy r fx fy st) =>
        (Ok tt, store l (ObjRadialGradient cx cy r fx fy (st ++ [(pos, c)])%list) h)
    | _ => (Raise AttributeError, h)
    end.

(* ================================================================== *)
(** ** The style record and the paint options *)

Record RangeSliderStyle : Type := mkStyle {
  brush_active : option value;
  brush_inactive : option value;
  brush_disabled : option value;
  pen_active : option value;
  pen_inactive : option value;
  pen_disabled : option value;
  vertical_thickness : option Q;
  horizontal_thickness : option Q;
  tick_offset : option Q;
  tick_bar_alpha : option Q;
  v_offset : option Q;
  h_offset : option Q;
  has_stylesheet : bool
}.

(** [RangeSliderStyle()]: every field at its default. *)
Definition unset_style : RangeSliderStyle :=
  mkStyle None None None None None None None None None None None None false.

(** [QPalette.ColorGroup], the three groups the accessors know. *)
Inductive ColorGroup : Type := Active | Disabled | Inactive.

Inductive Orientation : Type := Horizontal | Vertical.

(** [QSlider.TickPosition] *)
Inductive TickPosition : Type :=
| NoTicks | TicksAbove | TicksBelow | TicksBothSides.

Definition tick_flags (tp : TickPosition) : Z :=
  match tp with
  | NoTicks => 0
  | TicksAbove => 1
  | TicksBelow => 2
  | TicksBothSides => 3
  end.

Definition tick_eqb (a b : TickPosition) : bool :=
  tick_flags a =? tick_flags b.

(** [QStyleOptionSlider], the three things the accessors read. *)
Record QStyleOptionSlider : Type := mkOpt {
  currentColorGroup : ColorGroup;
  orientation : Orientation;
  tickPosition : TickPosition
}.

(* ================================================================== *)
(** ** The accessors *)

Section Accessors.

(** The module-level [SYSTEM_STYLE]. *)
Variable SYSTEM_STYLE : RangeSliderStyle.

(** [getattr(style, attr)] for the [attr] that [brush] looks up under
    the colour group. *)
Definition brush_attr (cg : ColorGroup) (s : RangeSliderStyle)
  : option value :=
  match cg with
  | Active => brush_active s
  | Disabled => brush_disabled s
  | Inactive => brush_inactive s
  end.

Definition brush (self : RangeSliderStyle) (opt : QStyleOptionSlider)
  : M heap (option value) :=
  let cg := currentColorGroup opt in
  let val := brush_attr cg self ||| brush_attr cg SYSTEM_STYLE in
  val <- match val with
         | Some (VStr s) =>
             l <- alloc (ObjColor (mkQColor s None)) ;; ret (Some (VObj l))
         | _ => ret val
         end ;;
  if negb (tick_eqb (tickPosition opt) NoTicks) then
    setAlphaF val (tick_bar_alpha self ||| tick_bar_alpha SYSTEM_STYLE) ;;;
    ret val
  else ret val.

(** [off + x] and [off - x]; a [None] operand is a [TypeError]. *)
Definition num_add (off : Q) (x : option Q) : result Q :=
  match x with
  | Some q => Ok (off + q)%Q
  | None => Raise TypeError
  end.

Definition num_sub (off : Q) (x : option Q) : result Q :=
  match x with
  | Some q => Ok (off - q)%Q
  | None => Raise TypeError
  end.

Definition offset (self : RangeSliderStyle) (opt : QStyleOptionSlider)
  : result Q :=
  let tp := tick_flags (tickPosition opt) in
  let off := 0%Q in
  if negb (has_stylesheet self) then
    match
      match orientation opt with
      | Horizontal =>
          num_add off (h_offset self ||| h_offset SYSTEM_STYLE ||| Some 0%Q)
      | Vertical =>
          num_add off (v_offset self ||| v_offset SYSTEM_STYLE ||| Some 0%Q)
      end
    with
    | Raise e => Raise e
    | Ok off =>
        if truth (Z.land tp (tick_flags TicksAbove)) then
          num_add off (tick_offset self ||| tick_offset SYSTEM_STYLE)
        else if truth (Z.land tp (tick_flags TicksBelow)) then
          num_sub off (tick_offset self ||| tick_offset SYSTEM_STYLE)
        else Ok off
    end
  else Ok off.

Definition thickness (self : RangeSliderStyle) (opt : QStyleOptionSlider)
  : option Q :=
  match orientation opt with
  | Horizontal =>
      horizontal_thickness self ||| horizontal_thickness SYSTEM_STYLE
  | Vertical =>
      vertical_thickness self ||| vertical_thickness SYSTEM_STYLE
  end.

End Accessors.

(* ================================================================== *)
(** ** System-specific default styles *)

Definition BASE_STYLE : RangeSliderStyle := {|
  brush_active := Some (VStr "#3B88FD");
  brush_inactive := Some (VStr "#8F8F8F");
  brush_disabled := Some (VStr "#BBBBBB");
  pen_active := Some (VStr "transparent");
  pen_inactive := Some (VStr "transparent");
  pen_disabled := Some (VStr "transparent");
  vertical_thickness := Some 4%Q;
  horizontal_thickness := Some 4%Q;
  tick_offset := Some 0%Q;
  tick_bar_alpha := Some (3 # 10)%Q;
  v_offset := Some 0%Q;
  h_offset := Some 0%Q;
  has_stylesheet := false
|}.

(** [replace(BASE_STYLE, ...)]: the fields not named are those of
    [BASE_STYLE]. *)
Definition CATALINA_STYLE : RangeSliderStyle := {|
  brush_active := Some (VStr "#3B88FD");
  brush_inactive := Some (VStr "#8F8F8F");
  brush_disabled := Some (VStr "#D2D2D2");
  pen_active := pen_active BASE_STYLE;
  pen_inactive := pen_inactive BASE_STYLE;
  pen_disabled := pen_disabled BASE_STYLE;
  vertical_thickness := Some 3%Q;
  horizontal_thickness := Some 3%Q;
  tick_offset := Some 4%Q;
  tick_bar_alpha := Some (3 # 10)%Q;
  v_offset := v_offset BASE_STYLE;
  h_offset := h_offset BASE_STYLE;
  has_stylesheet := has_stylesheet BASE_STYLE
|}.

(** [replace(CATALINA_STYLE, ...)] *)
Definition BIG_SUR_STYLE : RangeSliderStyle := {|
  brush_active := Some (VStr "#0A81FE");
  brush_inactive := Some (VStr "#D5D5D5");
  brush_disabled := Some (VStr "#E6E6E6");
  pen_active := pen_active CATALINA_STYLE;
  pen_inactive := pen_inactive CATALINA_STYLE;
  pen_disabled := pen_disabled CATALINA_STYLE;
  vertical_thickness := Some 4%Q;
  horizontal_thickness := Some 4%Q;
  tick_offset := Some 0%Q;
  tick_bar_alpha := Some (2 # 10)%Q;
  v_offset := v_offset CATALINA_STYLE;
  h_offset := Some (-2)%Q;
  has_stylesheet := has_stylesheet CATALINA_STYLE
|}.

(** [replace(BASE_STYLE, ...)] *)
Definition LINUX_STYLE : RangeSliderStyle := {|
  brush_active := Some (VStr "#44A0D9");
  brush_inactive := Some (VStr "#44A0D9");
  brush_disabled := Some (VStr "#44A0D9");
  pen_active := Some (VStr "#286384");
  pen_inactive := Some (VStr "#286384");
  pen_disabled := Some (VStr "#286384");
  vertical_thickness := vertical_thickness BASE_STYLE;
  horizontal_thickness := horizontal_thickness BASE_STYLE;
  tick_offset := tick_offset BASE_STYLE;
  tick_bar_alpha := tick_bar_alpha BASE_STYLE;
  v_offset := v_offset BASE_STYLE;
  h_offset := h_offset BASE_STYLE;
  has_stylesheet := has_stylesheet BASE_STYLE
|}.

(** The choice of [SYSTEM_STYLE] at import time, as a function of
    [platform.system()] and of [platform.mac_ver()[0]]. *)
Definition select_SYSTEM_STYLE (SYSTEM mac_ver : string)
  : result RangeSliderStyle :=
  if String.eqb SYSTEM "Darwin" then
    match py_int (fst (split_once "." mac_ver)) with
    | Raise e => Raise e
    | Ok major =>
        if 11 <=? major then Ok BIG_SUR_STYLE else Ok CATALINA_STYLE
    end
  else if String.eqb SYSTEM "Windows" then Ok BASE_STYLE
  else if String.eqb SYSTEM "Linux" then Ok LINUX_STYLE
  else Ok BASE_STYLE.

(* ================================================================== *)
(** ** Stylesheet parsing logic *)

Section Parsing.

(** [QColor(name).isValid()], decided by Qt. *)
Variable isValid : string -> bool.

(** [print("match", d)] for the groups [d] of a radial match, once [d] is
    there: the line is written to [sys.stdout], which decides.  The write
    raises on a stream that is closed ([ValueError]), cannot encode the
    text (a [UnicodeEncodeError], which is a [ValueError]) or fails
    ([OSError]). *)
Variable print_match : groups -> result unit.

Definition lift_result {S A : Type} (r : result A) : M S A :=
  fun s => (r, s).

(** [float(g)] for a group [g] of a match; a group that took no part
    is [None], which [float] refuses. *)
Definition float_group (g : option string) : result Q :=
  match g with
  | Some s => py_float s
  | None => Raise TypeError
  end.

(** [[float(i) for i in gs]] *)
Fixpoint floats (gs : list (option string)) : result (list Q) :=
  match gs with
  | [] => Ok []
  | g :: gs' =>
      match float_group g with
      | Raise e => Raise e
      | Ok q =>
          match floats gs' with
          | Raise e => Raise e
          | Ok qs => Ok (q :: qs)
          end
      end
  end.

(** [QColor(g)] for a group [g], as a colour value. *)
Definition color_of_group (g : option string) : result QColor :=
  match g with
  | Some s => Ok (mkQColor s None)
  | None => Raise TypeError
  end.

(** [match.groupdict()]: an attribute that [None] does not have. *)
Definition groupdict (m : option groups) : result groups :=
  match m with
  | Some gs => Ok gs
  | None => Raise AttributeError
  end.

Definition parse_color (color : string) : M heap value :=
  qc <- alloc (ObjColor (mkQColor color None)) ;;
  if isValid color then ret (VObj qc)
  else
    (* try linear gradient *)
    let m := match_ qlineargrad_pattern color in
    match m with
    | Some gs =>
        args <- lift_result (floats (firstn 4 gs)) ;;
        match args with
        | [x1; y1; x2; y2] =>
            grad <- alloc (ObjLinearGradient x1 y1 x2 y2 []) ;;
            stop0 <- lift_result (color_of_group (group 4 gs)) ;;
            setColorAt grad 0 stop0 ;;;
            stop1 <- lift_result (color_of_group (group 5 gs)) ;;
            setColorAt grad 1 stop1 ;;;
            ret (VObj grad)
        | _ => raise TypeError
        end
    | None =>
        (* try radial gradient *)
        let m := match_ qradial_pattern color in
        d <- lift_result (groupdict m) ;;  (* the argument of print *)
        lift_result (print_match d) ;;;    (* print writes the line *)
        match m with
        | Some gs =>
            args <- lift_result (floats (firstn 5 gs)) ;;
            match args with
            | [cx; cy; radius; fx; fy] =>
                grad <- alloc (ObjRadialGradient cx cy radius fx fy []) ;;
                stop0 <- lift_result (color_of_group (group 5 gs)) ;;
                setColorAt grad 0 stop0 ;;;
                stop1 <- lift_result (color_of_group (group 6 gs)) ;;
                setColorAt grad 1 stop1 ;;;
                ret (VObj grad)
            | _ => raise TypeError
            end
        | None =>
            (* fallback to dark gray *)
            ret (VStr "#333")
        end
    end.

(** The slider: its class name, its own stylesheet, its style record. *)
Record QRangeSlider : Type := mkSlider {
  class_name : string;
  styleSheet : string;
  _style : RangeSliderStyle
}.

(** What the extraction reads and writes: the slider and the store of
    Qt objects. *)
Record world : Type := mkWorld {
  obj : QRangeSlider;
  objects : heap
}.

Definition on_heap {A : Type} (m : M heap A) : M world A :=
  fun w =>
    let (r, h) := m (objects w) in (r, mkWorld (obj w) h).

Definition modify_style (f : RangeSliderStyle -> RangeSliderStyle)
  : M world unit :=
  fun w =>
    let o := obj w in
    (Ok tt,
     mkWorld (mkSlider (class_name o) (styleSheet o) (f (_style o)))
             (objects w)).

Definition setStyleSheet (qss : string) : M world unit :=
  fun w =>
    let o := obj w in
    (Ok tt, mkWorld (mkSlider (class_name o) qss (_style o)) (objects w)).

Definition set_has_stylesheet (b : bool) (s : RangeSliderStyle)
  : RangeSliderStyle :=
  mkStyle (brush_active s) (brush_inactive s) (brush_disabled s)
          (pen_active s) (pen_inactive s) (pen_disabled s)
          (vertical_thickness s) (horizontal_thickness s)
          (tick_offset s) (tick_bar_alpha s) (v_offset s) (h_offset s) b.

Definition set_brush_active (v : value) (s : RangeSliderStyle)
  : RangeSliderStyle :=
  mkStyle (Some v) (brush_inactive s) (brush_disabled s)
          (pen_active s) (pen_inactive s) (pen_disabled s)
          (vertical_thickness s) (horizontal_thickness s)
          (tick_offset s) (tick_bar_alpha s) (v_offset s) (h_offset s)
          (has_stylesheet s).

Definition set_brush_inactive (v : value) (s : RangeSliderStyle)
  : RangeSliderStyle :=
  mkStyle (brush_active s) (Some v) (brush_disabled s)
          (pen_active s) (pen_inactive s) (pen_disabled s)
          (vertical_thickness s) (horizontal_thickness s)
          (tick_offset s) (tick_bar_alpha s) (v_offset s) (h_offset s)
          (has_stylesheet s).

Definition set_brush_disabled (v : value) (s : RangeSliderStyle)
  : RangeSliderStyle :=
  mkStyle (brush_active s) (brush_inactive s) (Some v)
          (pen_active s) (pen_inactive s) (pen_disabled s)
          (vertical_thickness s) (horizontal_thickness s)
          (tick_offset s) (tick_bar_alpha s) (v_offset s) (h_offset s)
          (has_stylesheet s).

(** [setattr(style, f"{orient}_thickness", thickness)] *)
Definition set_thickness (orient : Orientation) (q : Q)
    (s : RangeSliderStyle) : RangeSliderStyle :=
  match orient with
  | Horizontal =>
      mkStyle (brush_active s) (brush_inactive s) (brush_disabled s)
              (pen_active s) (pen_inactive s) (pen_disabled s)
              (vertical_thickness s) (Some q)
              (tick_offset s) (tick_bar_alpha s) (v_offset s) (h_offset s)
              (has_stylesheet s)
  | Vertical =>
      mkStyle (brush_active s) (brush_inactive s) (brush_disabled s)
              (pen_active s) (pen_inactive s) (pen_disabled s)
              (Some q) (horizontal_thickness s)
              (tick_offset s) (tick_bar_alpha s) (v_offset s) (h_offset s)
              (has_stylesheet s)
  end.

(** The text the loop of [update_styles_from_stylesheet] builds on its
    way up the parents: [p_qss] is the stylesheet of the widget [p] the
    loop stands at, [parents] the stylesheets of its parent, of the
    parent of that, and so on; each round puts the stylesheet of [p] in
    front and steps to the parent. *)
Fixpoint parents_loop (p_qss : string) (parents : list string)
    (qss : string) : string :=
  match parents with
  | [] => qss
  | parent_qss :: parents' => parents_loop parent_qss parents' (p_qss ++ qss)
  end.

(** [str(orientation)] inside the f-string. *)
Definition format_group (g : option string) : string :=
  match g with
  | Some s => s
  | None => "None"
  end.

Definition newline : string := String (ascii_of_nat 10) "".

(** The body of the first loop, with its [break]: the lines after the
    first one that holds a fill declaration are not looked at. *)
Fixpoint bar_color_loop (qss : string) (orientation : option string)
    (lines : list string) : M world unit :=
  match lines with
  | [] => ret tt
  | line :: lines' =>
      match search background_pattern line with
      | Some bgrd =>
          color <- match last_group bgrd with
                   | Some text => on_heap (parse_color text)
                   | None => raise TypeError
                   end ;;
          modify_style (set_brush_active color) ;;;
          modify_style (set_brush_inactive color) ;;;
          modify_style (set_brush_disabled color) ;;;
          modify_style (set_has_stylesheet true) ;;;
          cls <- (fun w => (Ok (class_name (obj w)), w)) ;;
          let _ss := newline ++ cls ++ "::sub-page:"
                     ++ format_group orientation ++ "{background: none}" in
          setStyleSheet (qss ++ _ss)
      | None => bar_color_loop qss orientation lines'
      end
  end.

(** The body of the second loop, which has no [break]: every line is
    looked at. *)
Fixpoint bar_size_loop (orient : Orientation) (dim : string)
    (lines : list string) : M world unit :=
  match lines with
  | [] => ret tt
  | line :: lines' =>
      match search (dim_pattern dim) line with
      | Some bgrd =>
          thickness <- lift_result (float_group (last_group bgrd)) ;;
          modify_style (set_thickness orient thickness) ;;;
          modify_style (set_has_stylesheet true)
      | None => ret tt
      end ;;;
      bar_size_loop orient dim lines'
  end.

Definition orient_name (o : Orientation) : string :=
  match o with
  | Horizontal => "horizontal"
  | Vertical => "vertical"
  end.

(** One round of the loop over the two orientations.  The content of the
    block is a group of the match; [None] has no [splitlines]. *)
Definition find_bar_size (qss : string) (orient : Orientation)
    (dim : string) : M world unit :=
  match search (groove_pattern (orient_name orient)) qss with
  | Some gs =>
      match group 0 gs with
      | Some content => bar_size_loop orient dim (rev (Str.splitlines content))
      | None => raise AttributeError
      end
  | None => ret tt
  end.

(** The search for the fill: [orientation, content = match.groups()]. *)
Definition find_bar_color (qss : string) : M world unit :=
  match search sub_page_pattern qss with
  | Some gs =>
      let orientation := group 0 gs in
      match group 1 gs with
      | Some content =>
          bar_color_loop qss orientation (rev (Str.splitlines content))
      | None => raise AttributeError
      end
  | None => ret tt
  end.

(** [update_styles_from_stylesheet(obj)], for a slider whose parents,
    nearest first, have the stylesheets [parents] and whose application
    has the stylesheet [app_qss]. *)
Definition update_styles_from_stylesheet (parents : list string)
    (app_qss : string) : M world unit :=
  own <- (fun w => (Ok (styleSheet (obj w)), w)) ;;
  let qss := parents_loop own parents own in
  let qss := app_qss ++ qss in
  modify_style (set_has_stylesheet false) ;;;
  (* Find bar color *)
  find_bar_color qss ;;;
  (* Find bar height/width *)
  find_bar_size qss Horizontal "height" ;;;
  find_bar_size qss Vertical "width".

End Parsing.

(* ================================================================== *)
(** ** What the offset accessor returns *)

(** The value of a field, else [fallback], where a field counts when it
    holds a number other than zero. *)
Definition else_ (x : option Q) (fallback : Q) : Q :=
  match x with
  | Some q => if Qeq_bool q 0 then fallback else q
  | None => fallback
  end.

(** Instance field, else platform default, else 0, each of the two
    fields counting when it holds a number other than zero. *)
Definition base_offset (sys self : RangeSliderStyle) (o : Orientation) : Q :=
  match o with
  | Horizontal => else_ (h_offset self) (else_ (h_offset sys) 0)
  | Vertical => else_ (v_offset self) (else_ (v_offset sys) 0)
  end.

(** Instance field, else platform default, a field counting when it holds
    a number other than zero. *)
Definition resolved_tick_offset (sys self : RangeSliderStyle) : Q :=
  else_ (tick_offset self) (else_ (tick_offset sys) 0).

(** The value of a field, else [fallback], in the words of the
    description of the record, whose fields are a number or unset: a
    field that is set counts, whatever the number. *)
Definition unset_else (x : option Q) (fallback : Q) : Q :=
  match x with
  | Some q => q
  | None => fallback
  end.

(** Instance field, else platform default, else 0, in those words. *)
Definition described_base_offset (sys self : RangeSliderStyle)
    (o : Orientation) : Q :=
  match o with
  | Horizontal => unset_else (h_offset self) (unset_else (h_offset sys) 0)
  | Vertical => unset_else (v_offset self) (unset_else (v_offset sys) 0)
  end.

(** A style record that sets one field, the horizontal offset, to 0. *)
Definition zero_h_offset : RangeSliderStyle :=
  mkStyle None None None None None None None None None None None
          (Some 0%Q) false.

(** The four presets a platform can be given. *)
Definition presets : list RangeSliderStyle :=
  [BASE_STYLE; CATALINA_STYLE; BIG_SUR_STYLE; LINUX_STYLE].

(** The objects without a [setAlphaF] method. *)
Definition is_gradient (o : qobject) : bool :=
  match o with
  | ObjColor _ => false
  | ObjLinearGradient _ _ _ _ _ | ObjRadialGradient _ _ _ _ _ _ => true
  end.

(** Whether every match of [r] sets the group [i]. *)
Fixpoint mandatory (i : nat) (r : regex) : bool :=
  match r with
  | Lit _ | One _ | Star _ | Plus _ | Opt _ => false
  | Group j r' => Nat.eqb i j || mandatory i r'
  | Cat r1 r2 => mandatory i r1 || mandatory i r2
  end.

Definition is_set (i : nat) (gs : groups) : Prop := nth i gs None <> None.

(** The world with the style record of the slider changed by [f]. *)
Definition with_style (f : RangeSliderStyle -> RangeSliderStyle) (w : world)
  : world :=
  mkWorld (mkSlider (class_name (obj w)) (styleSheet (obj w))
                    (f (_style (obj w))))
          (objects w).

(** [getattr(style, f"{orient}_thickness")] *)
Definition get_thickness (orient : Orientation) (s : RangeSliderStyle)
  : option Q :=
  match orient with
  | Horizontal => horizontal_thickness s
  | Vertical => vertical_thickness s
  end.

(** The thickness a line declares for the property [dim], if it declares
    one. *)
Definition declaration (dim line : string) : option Q :=
  match search (dim_pattern dim) line with
  | Some bgrd =>
      match float_group (last_group bgrd) with
      | Ok q => Some q
      | Raise _ => None
      end
  | None => None
  end.

(** The thicknesses that the lines declare, in the order of the lines. *)
Fixpoint declared (dim : string) (lines : list string) : list Q :=
  match lines with
  | [] => []
  | line :: lines' =>
      match declaration dim line with
      | Some q => q :: declared dim lines'
      | None => declared dim lines'
      end
  end.

(** One assignment of the second loop after the other. *)
Definition apply_declarations (orient : Orientation) (qs : list Q)
    (s : RangeSliderStyle) : RangeSliderStyle :=
  fold_left (fun s q => set_has_stylesheet true (set_thickness orient q s))
            qs s.

Definition is_hex_digit (c : ascii) : bool :=
  let n := Str.code c in
  ((48 <=? n) && (n <=? 57) || (65 <=? n) && (n <=? 70)
   || (97 <=? n) && (n <=? 102))%N.

(** One validity oracle, for the examples: the names made of a hash sign
    and 3, 6, 8, 9 or 12 hexadecimal digits. *)
Definition hex_names (name : string) : bool :=
  match name with
  | String "#" digits =>
      Str.all_chars is_hex_digit digits
      && existsb (Nat.eqb (String.length digits)) [3; 6; 8; 9; 12]%nat
  | _ => false
  end.

(** One standard output, for the examples: it takes every line. *)
Definition quiet_stdout (d : groups) : result unit := Ok tt.

(** The stylesheet of the extraction scenario. *)
Definition scenario : string :=
  "QRangeSlider::sub-page:horizontal { background-color: #ff0000; } QRangeSlider::groove:horizontal { height: 10; }".

(** A groove block with two heights on two lines. *)
Definition two_heights : string :=
  "QRangeSlider::groove:horizontal { height: 10;" ++ newline
  ++ " height: 20; }".

(** A sub-page block with two fills on two lines. *)
Definition two_fills : string :=
  "QRangeSlider::sub-page:horizontal { background-color: #111111;" ++ newline
  ++ " background-color: #222222; }".

(** A slider of the class QRangeSlider with the stylesheet [qss] and a
    wholly unset style record, and no Qt object made yet. *)
Definition fresh (qss : string) : world :=
  mkWorld (mkSlider "QRangeSlider" qss unset_style) [].

(** A groove block that declares a height of zero. *)
Definition zero_height : string :=
  "QRangeSlider::groove:horizontal { height: 0; }".

(** The texts a pattern matches, whatever the order the matcher tries
    them in. *)
Inductive matches : regex -> string -> Prop :=
| MLit (l : string) : matches (Lit l) l
| MOne (k : cclass) (c : ascii) :
    cmatch k c = true -> matches (One k) (String c "")
| MStar (k : cclass) (v : string) :
    Str.all_chars (cmatch k) v = true -> matches (Star k) v
| MPlus (k : cclass) (v : string) :
    v <> "" -> Str.all_chars (cmatch k) v = true -> matches (Plus k) v
| MOptNone (r : regex) : matches (Opt r) ""
| MOptSome (r : regex) (v : string) : matches r v -> matches (Opt r) v
| MGroup (i : nat) (r : regex) (v : string) :
    matches r v -> matches (Group i r) v
| MCat (r1 r2 : regex) (v1 v2 : string) :
    matches r1 v1 -> matches r2 v2 -> matches (Cat r1 r2) (v1 ++ v2).

(** The bodies of the groups of [r] that carry the number [j]. *)
Fixpoint group_bodies (j : nat) (r : regex) : list regex :=
  match r with
  | Lit _ | One _ | Star _ | Plus _ => []
  | Opt r' => group_bodies j r'
  | Group i r' => (if Nat.eqb i j then [r'] else []) ++ group_bodies j r'
  | Cat r1 r2 => group_bodies j r1 ++ group_bodies j r2
  end.

(** What [pen] returns: [Qt.NoPen], or the value it resolved. *)
Inductive pen_style : Type :=
| NoPen
| PenOf (val : option value).

Section Pen.

(** The module-level [SYSTEM_STYLE]. *)
Variable SYSTEM_STYLE : RangeSliderStyle.

(** [getattr(style, attr)] for the [attr] that [pen] looks up under the
    colour group. *)
Definition pen_attr (cg : ColorGroup) (s : RangeSliderStyle) : option value :=
  match cg with
  | Active => pen_active s
  | Disabled => pen_disabled s
  | Inactive => pen_inactive s
  end.

Definition pen (self : RangeSliderStyle) (opt : QStyleOptionSlider)
  : M heap pen_style :=
  let cg := currentColorGroup opt in
  let val := pen_attr cg self ||| pen_attr cg SYSTEM_STYLE in
  if negb (truth val) then ret NoPen
  else
    val <- match val with
           | Some (VStr s) =>
               l <- alloc (ObjColor (mkQColor s None)) ;; ret (Some (VObj l))
           | _ => ret val
           end ;;
    if negb (tick_eqb (tickPosition opt) NoTicks) then
      setAlphaF val (tick_bar_alpha self ||| tick_bar_alpha SYSTEM_STYLE) ;;;
      ret (PenOf val)
    else ret (PenOf val).

End Pen.

(** The texts of a list, one after the other. *)
Definition join (l : list string) : string := fold_right append "" l.

(** [sub in s] *)
Fixpoint contains (sub s : string) : bool :=
  Str.starts_with sub s
  || match s with
     | String _ s' => contains sub s'
     | EmptyString => false
     end.

(** The fields of the style record that the stylesheet is never read
    for: the pens, the tick offset, the tick-bar opacity and the two
    offsets. *)
Definition not_from_stylesheet (s : RangeSliderStyle)
  : list (option value) * list (option Q) :=
  ([pen_active s; pen_inactive s; pen_disabled s],
   [tick_offset s; tick_bar_alpha s; v_offset s; h_offset s]).

(** The opacity of the colour object that a call of [brush] or [pen]
    makes from a text: none without ticks. *)
Definition drawn_alpha (opt : QStyleOptionSlider) (a : Q) : option Q :=
  if tick_eqb (tickPosition opt) NoTicks then None else Some a.

(** The text that [update_styles_from_stylesheet] searches. *)
Definition collected_qss (own : string) (parents : list string)
    (app_qss : string) : string :=
  app_qss ++ parents_loop own parents own.

(** The fill declaration that the extraction reads in [qss]: the first
    sub-page block, the orientation of its selector, and the text of the
    declaration on the last line of its body that has one. *)
Definition reads_fill (qss : string) (orientation : option string)
    (text : string) : Prop :=
  exists gs content before line after bgrd,
    search sub_page_pattern qss = Some gs
    /\ group 0 gs = orientation
    /\ group 1 gs = Some content
    /\ Str.splitlines content = (before ++ line :: after)%list
    /\ search background_pattern line = Some bgrd
    /\ last_group bgrd = Some text
    /\ forall l, In l after -> search background_pattern l = None.

(** The rule that the extraction appends to the stylesheet of the
    slider. *)
Definition suppression_rule (cls : string) (orientation : option string)
  : string :=
  newline ++ cls ++ "::sub-page:" ++ format_group orientation
  ++ "{background: none}".

(** The three assignments of a fill and the flag. *)
Definition set_fill (v : value) (s : RangeSliderStyle) : RangeSliderStyle :=
  set_has_stylesheet true
    (set_brush_disabled v (set_brush_inactive v (set_brush_active v s))).

(** A stylesheet with a fill that [parse_color] does not know, and a
    height. *)
Definition image_fill : string :=
  "QRangeSlider::sub-page { background: url(bar.png); } QRangeSlider::groove:horizontal { height: 10; }".

(* ================================================================== *)
(** ** Facts about the matcher *)

Section MatcherFacts.

Context {A : Type}.

Lemma length_drop (n : nat) (s : string) :
  String.length (Str.drop n s) = (String.length s - n)%nat.
Proof.
  revert s. induction n as [|n IH]; intros [|c s]; cbn; auto.
Qed.

Lemma consumed_drop (c : ascii) (s : string) (n : nat) :
  (n <= String.length s)%nat ->
  Str.consumed (String c s) (Str.drop n s) = String c (Str.take n s).
Proof.
  intros Hn. unfold Str.consumed. rewrite length_drop. cbn [String.length].
  replace (S (String.length s) - (String.length s - n))%nat with (S n)
    by lia.
  reflexivity.
Qed.

(** A successful greedy repetition took some [n] characters of the
    class and let the continuation succeed on the rest. *)
Lemma star_inv (k : cclass) (cont : string -> option A) (s : string)
    (a : A) :
  star k cont s = Some a ->
  exists n, (n <= String.length s)%nat
            /\ Str.all_chars (cmatch k) (Str.take n s) = true
            /\ cont (Str.drop n s) = Some a.
Proof.
  induction s as [|c s IH]; cbn [star].
  - intros H. exists 0%nat. cbn. auto.
  - destruct (cmatch k c) eqn:Ec.
    + destruct (star k cont s) as [a'|] eqn:Es.
      * intros [= <-]. destruct (IH eq_refl) as [n [Hn [Hall Hc]]].
        exists (S n). cbn. rewrite Ec, Hall. repeat split; auto. lia.
      * intros H. exists 0%nat. cbn. repeat split; auto. lia.
    + intros H. exists 0%nat. cbn. repeat split; auto. lia.
Qed.

Lemma set_group_length (i : nat) (v : string) (gs : groups) :
  List.length (set_group i v gs) = List.length gs.
Proof.
  revert i. induction gs as [|g gs IH]; intros [|i]; cbn; auto.
Qed.

Lemma set_group_keeps (i j : nat) (v : string) (gs : groups) :
  is_set j gs -> is_set j (set_group i v gs).
Proof.
  unfold is_set. revert i j.
  induction gs as [|g gs IH]; intros [|i] [|j]; cbn; auto; discriminate.
Qed.

Lemma set_group_sets (i : nat) (v : string) (gs : groups) :
  (i < List.length gs)%nat -> nth i (set_group i v gs) None = Some v.
Proof.
  revert i. induction gs as [|g gs IH]; intros [|i]; cbn; try lia; auto.
  intros H. apply IH. lia.
Qed.

(** A successful [exec] reached its continuation, with as many groups
    as it started from and none of the set ones lost; the groups that
    the pattern cannot skip are set. *)
Lemma exec_inv (r : regex) :
  forall (gs : groups) (s : string)
         (cont : groups -> string -> option A) (a : A),
    exec r gs s cont = Some a ->
    exists gs' s',
      cont gs' s' = Some a
      /\ List.length gs' = List.length gs
      /\ (forall j, is_set j gs -> is_set j gs')
      /\ (forall i, mandatory i r = true ->
                    (i < List.length gs)%nat -> is_set i gs').
Proof.
  induction r as [l|k|k|k|r IH|i r IH|r1 IH1 r2 IH2];
    intros gs s cont a; cbn [exec mandatory].
  - destruct (Str.starts_with l s); [|discriminate].
    intros H. exists gs, (Str.drop (String.length l) s).
    repeat split; auto; discriminate.
  - destruct s as [|c s]; [discriminate|].
    destruct (cmatch k c); [|discriminate].
    intros H. exists gs, s. repeat split; auto; discriminate.
  - intros H. apply star_inv in H. destruct H as [n [_ [_ H]]].
    exists gs, (Str.drop n s). repeat split; auto; discriminate.
  - destruct s as [|c s]; [discriminate|].
    destruct (cmatch k c); [|discriminate].
    intros H. apply star_inv in H. destruct H as [n [_ [_ H]]].
    exists gs, (Str.drop n s). repeat split; auto; discriminate.
  - destruct (exec r gs s cont) as [a'|] eqn:E.
    + intros [= <-]. destruct (IH _ _ _ _ E) as [gs' [s' [H [Hl [Hk _]]]]].
      exists gs', s'. repeat split; auto; discriminate.
    + intros H. exists gs, s. repeat split; auto; discriminate.
  - intros H. destruct (IH _ _ _ _ H) as [gs' [s' [Hc [Hl [Hk Hm]]]]].
    exists (set_group i (Str.consumed s s') gs'), s'.
    split; [exact Hc|]. split; [now rewrite set_group_length|].
    split; [intros j Hj; apply set_group_keeps; auto|].
    intros j Hj Hlt. apply orb_true_iff in Hj. destruct Hj as [Hj|Hj].
    + apply Nat.eqb_eq in Hj. subst j. unfold is_set.
      rewrite set_group_sets by lia. discriminate.
    + apply set_group_keeps. auto.
  - intros H. destruct (IH1 _ _ _ _ H) as [gs1 [s1 [H1 [Hl1 [Hk1 Hm1]]]]].
    destruct (IH2 _ _ _ _ H1) as [gs2 [s2 [H2 [Hl2 [Hk2 Hm2]]]]].
    exists gs2, s2. split; [exact H2|]. split; [congruence|].
    split; [auto|].
    intros j Hj Hlt. apply orb_true_iff in Hj. destruct Hj as [Hj|Hj].
    + apply Hk2. auto.
    + apply Hm2; auto. lia.
Qed.

End MatcherFacts.

Lemma match_inv (r : regex) (s : string) (gs : groups) :
  match_ r s = Some gs ->
  List.length gs = ngroups r
  /\ (forall i, mandatory i r = true -> (i < ngroups r)%nat -> is_set i gs).
Proof.
  unfold match_. intros H. apply exec_inv in H.
  destruct H as [gs' [s' [[= <-] [Hl [_ Hm]]]]].
  rewrite repeat_length in Hl, Hm. auto.
Qed.

Lemma search_inv (r : regex) (s : string) (gs : groups) :
  search r s = Some gs -> exists s', match_ r s' = Some gs.
Proof.
  induction s as [|c s IH]; cbn [search].
  - destruct (match_ r "") eqn:E; [intros [= <-]; eauto|discriminate].
  - destruct (match_ r (String c s)) eqn:E; [intros [= <-]; eauto|auto].
Qed.

(* ================================================================== *)
(** ** The accessors: offset and thickness *)

Lemma truth_Q_zero (q : Q) : (q == 0)%Q -> truth q = false.
Proof.
  intros H. unfold truth, Truthy_Q.
  apply Qeq_bool_iff in H. now rewrite H.
Qed.

Lemma or_Some_else (x : option Q) (f : Q) :
  (x ||| Some f) = Some (else_ x f).
Proof.
  cbv [py_or truth Truthy_option Truthy_Q else_].
  destruct x as [a|]; [destruct (Qeq_bool a 0)|]; reflexivity.
Qed.

Lemma or_chain_else (x y : option Q) (d : Q) :
  (x ||| y ||| Some d) = Some (else_ x (else_ y d)).
Proof.
  rewrite or_Some_else. f_equal.
  cbv [py_or truth Truthy_option Truthy_Q else_].
  destruct x as [a|]; [destruct (Qeq_bool a 0) eqn:Ea|]; cbn;
    rewrite ?Ea; reflexivity.
Qed.

Lemma else_zero (t : Q) : (else_ (Some t) 0 == t)%Q.
Proof.
  unfold else_. destruct (Qeq_bool t 0) eqn:E; [|reflexivity].
  apply Qeq_bool_iff in E. now rewrite E.
Qed.

Lemma else_fallback_eq (x : option Q) (f g : Q) :
  (f == g)%Q -> (else_ x f == else_ x g)%Q.
Proof.
  intros H. unfold else_.
  destruct x as [a|]; [destruct (Qeq_bool a 0)|]; auto; reflexivity.
Qed.

Lemma tick_or_else (sys self : RangeSliderStyle) (t : Q) :
  tick_offset sys = Some t ->
  exists q, (tick_offset self ||| tick_offset sys) = Some q
            /\ (q == resolved_tick_offset sys self)%Q.
Proof.
  intros Ht. rewrite Ht, or_Some_else. eexists; split; [reflexivity|].
  unfold resolved_tick_offset. rewrite Ht.
  apply else_fallback_eq. symmetry. apply else_zero.
Qed.

(** C5.  Whenever [has_stylesheet] is true the offset accessor returns
    exactly 0, whatever the orientation, the tick position, the other
    fields of the record and the platform default are. *)
Theorem offset_zero_with_stylesheet
    (sys self : RangeSliderStyle) (opt : QStyleOptionSlider) :
  has_stylesheet self = true -> offset sys self opt = Ok 0%Q.
Proof.
  intros H. unfold offset. now rewrite H.
Qed.

Lemma offset_zero_with_stylesheet_witness :
  has_stylesheet (set_has_stylesheet true BIG_SUR_STYLE) = true
  /\ offset CATALINA_STYLE (set_has_stylesheet true BIG_SUR_STYLE)
            (mkOpt Active Horizontal TicksAbove) = Ok 0%Q.
Proof.
  split; [reflexivity|].
  apply (offset_zero_with_stylesheet CATALINA_STYLE
           (set_has_stylesheet true BIG_SUR_STYLE)
           (mkOpt Active Horizontal TicksAbove)).
  reflexivity.
Defined.

(** C6, as amended.  When [has_stylesheet] is false and the platform
    default has a tick offset, the offset accessor returns a number: the
    base offset of the orientation (the instance field when it is set and
    not zero, else the platform default when that is not zero, else 0)
    plus the resolved tick offset (the instance field when it is set and
    not zero, else the platform default) when the ticks are above, minus
    it when they are below, and the base offset itself when there are no
    ticks.  The position with ticks on both sides takes the branch of the
    ticks above, which the code tests first; each call takes one
    branch. *)
Theorem offset_without_stylesheet
    (sys self : RangeSliderStyle) (opt : QStyleOptionSlider) (t : Q) :
  has_stylesheet self = false ->
  tick_offset sys = Some t ->
  exists r,
    offset sys self opt = Ok r
    /\ let base := base_offset sys self (orientation opt) in
       let tick := resolved_tick_offset sys self in
       match tickPosition opt with
       | TicksAbove => (r == base + tick)%Q
       | TicksBelow => (r == base - tick)%Q
       | NoTicks => (r == base)%Q
       | TicksBothSides => (r == base + tick)%Q
       end.
Proof.
  intros Hs Ht.
  destruct (tick_or_else sys self t Ht) as [q [Hq Eq]].
  unfold offset. rewrite Hs. cbn [negb].
  assert (Hb : match orientation opt with
               | Horizontal =>
                   num_add 0 (h_offset self ||| h_offset sys ||| Some 0%Q)
               | Vertical =>
                   num_add 0 (v_offset self ||| v_offset sys ||| Some 0%Q)
               end = Ok (0 + base_offset sys self (orientation opt))%Q).
  { destruct (orientation opt); rewrite or_chain_else; reflexivity. }
  rewrite Hb, Hq.
  destruct (tickPosition opt); cbn;
    eexists; (split; [reflexivity|]); rewrite ?Eq; ring.
Qed.

Lemma offset_without_stylesheet_witness :
  exists r,
    offset CATALINA_STYLE unset_style (mkOpt Active Horizontal TicksBelow)
    = Ok r
    /\ (r == -4)%Q.
Proof.
  destruct (offset_without_stylesheet CATALINA_STYLE unset_style
              (mkOpt Active Horizontal TicksBelow) 4%Q eq_refl eq_refl)
    as [r [Hr Hv]].
  exists r. split; [exact Hr|].
  cbn in Hv. rewrite Hv. reflexivity.
Defined.

(** C6, the claim as stated fails: with a horizontal offset that is set,
    to 0, and no ticks, the base offset in the words of the claim is that
    0, and on the Big Sur preset the accessor returns the -2 of the
    preset. *)
Lemma offset_of_zero_field_is_default :
  has_stylesheet zero_h_offset = false
  /\ offset BIG_SUR_STYLE zero_h_offset (mkOpt Active Horizontal NoTicks)
     = Ok (-2)%Q
  /\ described_base_offset BIG_SUR_STYLE zero_h_offset Horizontal = 0%Q
  /\ ~ (-2 == 0)%Q.
Proof.
  split; [reflexivity|]. split; [reflexivity|]. split; [reflexivity|].
  intros H. discriminate H.
Qed.

(** C8.  For each of the four platform presets and both orientations, the
    thickness accessor on a wholly unset style record returns a number,
    and a strictly positive one. *)
Theorem thickness_positive_on_presets
    (sys : RangeSliderStyle) (opt : QStyleOptionSlider) :
  In sys presets ->
  exists q, thickness sys unset_style opt = Some q /\ (0 < q)%Q.
Proof.
  intros Hin. unfold presets in Hin. cbn [In] in Hin.
  destruct Hin as [<-|[<-|[<-|[<-|[]]]]];
    destruct opt as [cg [] tp]; cbn;
    eexists; (split; [reflexivity|]); reflexivity.
Qed.

Lemma thickness_positive_on_presets_witness :
  exists q, thickness CATALINA_STYLE unset_style
              (mkOpt Inactive Vertical NoTicks) = Some q /\ (0 < q)%Q.
Proof.
  apply (thickness_positive_on_presets CATALINA_STYLE
           (mkOpt Inactive Vertical NoTicks)).
  cbn. right. left. reflexivity.
Defined.

Lemma or_zero_field (z : Q) (y : option Q) :
  (z == 0)%Q -> (Some z ||| y) = (None ||| y).
Proof.
  intros Hz. unfold py_or.
  change (truth (Some z)) with (truth z). now rewrite (truth_Q_zero z Hz).
Qed.

(** C2, as the code has it.  When the fill that the brush accessor
    resolves is a gradient and the tick position is one that draws ticks,
    the accessor raises [AttributeError] (the gradient has no [setAlphaF])
    and leaves the store as it was; it does not return the gradient. *)
Theorem brush_gradient_with_ticks_raises
    (sys self : RangeSliderStyle) (opt : QStyleOptionSlider)
    (h : heap) (l : loc) (o : qobject) :
  (brush_attr (currentColorGroup opt) self
   ||| brush_attr (currentColorGroup opt) sys) = Some (VObj l) ->
  nth_error h l = Some o ->
  is_gradient o = true ->
  tickPosition opt <> NoTicks ->
  brush sys self opt h = (Raise AttributeError, h).
Proof.
  intros Hv Hl Hg Ht.
  unfold brush. rewrite Hv.
  assert (Hn : tick_eqb (tickPosition opt) NoTicks = false)
    by (destruct (tickPosition opt); [contradiction|reflexivity..]).
  rewrite Hn. cbn [negb].
  unfold bind, ret, setAlphaF. rewrite Hl.
  destruct o; [discriminate|reflexivity..].
Qed.

Lemma brush_gradient_with_ticks_raises_witness :
  brush LINUX_STYLE
    (mkStyle (Some (VObj 0%nat)) None None None None None
             None None None None None None true)
    (mkOpt Active Horizontal TicksAbove)
    [ObjLinearGradient 0 0 1 1
       [(0%Q, mkQColor "#fff" None); (1%Q, mkQColor "#000" None)]]
  = (Raise AttributeError,
     [ObjLinearGradient 0 0 1 1
        [(0%Q, mkQColor "#fff" None); (1%Q, mkQColor "#000" None)]]).
Proof.
  apply (brush_gradient_with_ticks_raises LINUX_STYLE _ _ _ 0%nat
           (ObjLinearGradient 0 0 1 1
              [(0%Q, mkQColor "#fff" None); (1%Q, mkQColor "#000" None)]));
    [reflexivity | reflexivity | reflexivity | discriminate].
Defined.

(** C9, as amended.  For every system name other than Darwin the
    selection succeeds: Linux gives the Linux preset and every other name,
    known or not, the base preset.  For Darwin the selection is decided by
    [int] of the text before the first point of the version: when that is
    an integer, 11 or more gives the Big Sur preset and less gives the
    Catalina preset; when [int] raises, the selection raises the same
    exception. *)
Theorem select_SYSTEM_STYLE_cases (SYSTEM mac_ver : string) :
  (SYSTEM <> "Darwin" ->
   select_SYSTEM_STYLE SYSTEM mac_ver
   = Ok (if String.eqb SYSTEM "Linux" then LINUX_STYLE else BASE_STYLE))
  /\ (SYSTEM = "Darwin" ->
      forall major : Z,
        py_int (fst (split_once "." mac_ver)) = Ok major ->
        select_SYSTEM_STYLE SYSTEM mac_ver
        = Ok (if 11 <=? major then BIG_SUR_STYLE else CATALINA_STYLE))
  /\ (SYSTEM = "Darwin" ->
      forall e : exn,
        py_int (fst (split_once "." mac_ver)) = Raise e ->
        select_SYSTEM_STYLE SYSTEM mac_ver = Raise e).
Proof.
  unfold select_SYSTEM_STYLE. repeat split.
  - intros Hn. apply String.eqb_neq in Hn. rewrite Hn.
    destruct (String.eqb SYSTEM "Windows") eqn:Ew.
    + apply String.eqb_eq in Ew. subst. reflexivity.
    + destruct (String.eqb SYSTEM "Linux"); reflexivity.
  - intros -> major Hm. cbn [String.eqb Ascii.eqb Bool.eqb]. rewrite Hm.
    destruct (11 <=? major); reflexivity.
  - intros -> e He. cbn [String.eqb Ascii.eqb Bool.eqb]. now rewrite He.
Qed.

Lemma select_SYSTEM_STYLE_cases_witness :
  select_SYSTEM_STYLE "Darwin" "11.2.3" = Ok BIG_SUR_STYLE
  /\ select_SYSTEM_STYLE "Darwin" "10.15.7" = Ok CATALINA_STYLE
  /\ select_SYSTEM_STYLE "Haiku" "" = Ok BASE_STYLE.
Proof.
  split; [|split].
  - apply (proj1 (proj2 (select_SYSTEM_STYLE_cases "Darwin" "11.2.3"))
             eq_refl 11 eq_refl).
  - apply (proj1 (proj2 (select_SYSTEM_STYLE_cases "Darwin" "10.15.7"))
             eq_refl 10 eq_refl).
  - apply (proj1 (select_SYSTEM_STYLE_cases "Haiku" "")). discriminate.
Defined.

(** C9, the claim as stated fails: on Darwin with a version text that
    [int] refuses, here the empty one, the selection raises. *)
Lemma select_SYSTEM_STYLE_not_total :
  select_SYSTEM_STYLE "Darwin" "" = Raise ValueError
  /\ ~ (exists style, select_SYSTEM_STYLE "Darwin" "" = Ok style).
Proof.
  split; [reflexivity|]. intros [style H]. discriminate H.
Qed.

(* ================================================================== *)
(** ** The thickness declarations *)

Lemma exec_cat_inv {A : Type} (r1 r2 : regex) (gs : groups) (s : string)
    (cont : groups -> string -> option A) (a : A) :
  exec (Cat r1 r2) gs s cont = Some a ->
  exists gs1 s1,
    exec r2 gs1 s1 cont = Some a /\ List.length gs1 = List.length gs.
Proof.
  cbn [exec]. intros H. apply exec_inv in H.
  destruct H as [gs1 [s1 [H [Hl _]]]]. eauto.
Qed.

(** What a group of one or more characters of a class captures. *)
Lemma exec_group_plus_inv {A : Type} (i : nat) (k : cclass) (gs : groups)
    (s : string) (cont : groups -> string -> option A) (a : A) :
  exec (Group i (Plus k)) gs s cont = Some a ->
  exists v s',
    v <> "" /\ Str.all_chars (cmatch k) v = true
    /\ cont (set_group i v gs) s' = Some a.
Proof.
  cbn [exec]. destruct s as [|c s]; [discriminate|].
  destruct (cmatch k c) eqn:Ec; [|discriminate].
  intros H. apply star_inv in H. destruct H as [n [Hn [Hall H]]].
  rewrite consumed_drop in H by exact Hn.
  exists (String c (Str.take n s)), (Str.drop n s).
  split; [discriminate|]. split; [|exact H].
  cbn. now rewrite Ec, Hall.
Qed.

(** A match of a thickness declaration captures digits, and at least
    one. *)
Lemma dim_pattern_digits (dim s : string) (gs : groups) :
  match_ (dim_pattern dim) s = Some gs ->
  exists v, gs = [Some v] /\ v <> "" /\ all_digits v = true.
Proof.
  unfold match_, dim_pattern. cbn [cat ngroups Nat.add repeat].
  intros H.
  apply exec_cat_inv in H. destruct H as [g1 [s1 [H L1]]].
  apply exec_cat_inv in H. destruct H as [g2 [s2 [H L2]]].
  apply exec_cat_inv in H. destruct H as [g3 [s3 [H L3]]].
  apply exec_cat_inv in H. destruct H as [g4 [s4 [H L4]]].
  apply exec_group_plus_inv in H. destruct H as [v [s5 [Hv [Hd [= <-]]]]].
  assert (L : List.length g4 = 1%nat) by (cbn in *; congruence).
  destruct g4 as [|g [|? ?]]; try discriminate L.
  exists v. auto.
Qed.

Lemma digit_is_no_point (c : ascii) :
  Str.isdigit c = true -> Ascii.eqb c "." = false.
Proof.
  intros H. destruct (Ascii.eqb_spec c "."); [subst; discriminate|reflexivity].
Qed.

Lemma split_once_digits (s : string) :
  all_digits s = true -> split_once "." s = (s, None).
Proof.
  unfold all_digits. induction s as [|c s IH]; cbn; [reflexivity|].
  intros H. apply andb_true_iff in H. destruct H as [Hc Hs].
  rewrite (digit_is_no_point c Hc), (IH Hs). reflexivity.
Qed.

(** [float] takes every text of digits that is not empty. *)
Lemma py_float_digits (s : string) :
  s <> "" -> all_digits s = true ->
  py_float s = Ok (inject_Z (digits_value 0 s)).
Proof.
  intros Hne Hd. unfold py_float. rewrite (split_once_digits s Hd), Hd.
  destruct s; [contradiction|reflexivity].
Qed.

(** Every line that the thickness pattern finds declares a thickness. *)
Lemma found_is_declared (dim line : string) (bgrd : groups) :
  search (dim_pattern dim) line = Some bgrd ->
  exists q, float_group (last_group bgrd) = Ok q
            /\ declaration dim line = Some q.
Proof.
  intros H. unfold declaration. rewrite H.
  apply search_inv in H. destruct H as [s' H].
  apply dim_pattern_digits in H. destruct H as [v [-> [Hne Hd]]].
  cbn [last_group last float_group]. rewrite (py_float_digits v Hne Hd).
  eauto.
Qed.

Lemma declared_app (dim : string) (a b : list string) :
  declared dim (a ++ b) = (declared dim a ++ declared dim b)%list.
Proof.
  induction a as [|l a IH]; cbn; [reflexivity|].
  destruct (declaration dim l); cbn; now rewrite IH.
Qed.

Lemma declared_rev (dim : string) (lines : list string) :
  declared dim (rev lines) = rev (declared dim lines).
Proof.
  induction lines as [|l lines IH]; cbn; [reflexivity|].
  rewrite declared_app, IH. cbn.
  destruct (declaration dim l); cbn; [reflexivity|now rewrite app_nil_r].
Qed.

Lemma with_style_id (w : world) : with_style (fun s => s) w = w.
Proof. destruct w as [[c q s] h]. reflexivity. Qed.

(** The second loop never raises, and leaves what its assignments, one
    after the other, make of the style record. *)
Lemma bar_size_loop_run (orient : Orientation) (dim : string)
    (lines : list string) :
  forall w : world,
    bar_size_loop orient dim lines w
    = (Ok tt, with_style (apply_declarations orient (declared dim lines)) w).
Proof.
  induction lines as [|line lines IH]; intros w; cbn [bar_size_loop declared].
  - unfold ret, apply_declarations. cbn. now rewrite with_style_id.
  - unfold bind at 1.
    destruct (search (dim_pattern dim) line) as [bgrd|] eqn:E.
    + destruct (found_is_declared dim line bgrd E) as [q [Hf Hd]].
      rewrite Hd. unfold bind, lift_result, modify_style. rewrite Hf.
      rewrite IH. destruct w as [[c ss s] h]. reflexivity.
    + unfold declaration. rewrite E. unfold ret. apply IH.
Qed.

(** The search for the size of the bar never raises. *)
Lemma find_bar_size_run (qss : string) (orient : Orientation) (dim : string)
    (w : world) :
  exists qs,
    find_bar_size qss orient dim w
    = (Ok tt, with_style (apply_declarations orient qs) w)
    /\ forall gs content,
         search (groove_pattern (orient_name orient)) qss = Some gs ->
         group 0 gs = Some content ->
         qs = rev (declared dim (Str.splitlines content)).
Proof.
  unfold find_bar_size.
  destruct (search (groove_pattern (orient_name orient)) qss) as [gs|] eqn:E.
  - pose proof E as E'. apply search_inv in E'. destruct E' as [s' Hm].
    apply match_inv in Hm. destruct Hm as [_ Hm].
    assert (Hs : is_set 0 gs) by (apply Hm; [reflexivity|cbn; lia]).
    unfold is_set in Hs. unfold group.
    destruct (nth 0 gs None) as [content|] eqn:Eg; [|contradiction].
    exists (rev (declared dim (Str.splitlines content))).
    rewrite bar_size_loop_run, declared_rev. split; [reflexivity|].
    intros gs' content' [= <-] Hg. unfold group in Hg. rewrite Eg in Hg.
    injection Hg as <-. reflexivity.
  - exists []. split; [|discriminate].
    unfold ret, apply_declarations. cbn. now rewrite with_style_id.
Qed.

Lemma apply_declarations_last (orient : Orientation) (qs : list Q) (q : Q)
    (s : RangeSliderStyle) :
  let s' := apply_declarations orient (qs ++ [q]) s in
  get_thickness orient s' = Some q /\ has_stylesheet s' = true.
Proof.
  unfold apply_declarations. rewrite fold_left_app. cbn [fold_left].
  destruct orient; split; reflexivity.
Qed.

Lemma apply_declarations_keeps (orient : Orientation) (qs : list Q) :
  forall s : RangeSliderStyle,
    let s' := apply_declarations orient qs s in
    brush_active s' = brush_active s
    /\ brush_inactive s' = brush_inactive s
    /\ brush_disabled s' = brush_disabled s
    /\ (has_stylesheet s = true -> has_stylesheet s' = true).
Proof.
  unfold apply_declarations.
  induction qs as [|q qs IH]; intros s; cbn [fold_left]; [auto|].
  destruct (IH (set_has_stylesheet true (set_thickness orient q s)))
    as [Ha [Hi [Hd Hs]]].
  rewrite Ha, Hi, Hd. destruct orient; cbn; auto.
Qed.

(** C3, as the code has it.  When the groove block of an orientation is
    found and the lines of its body declare one or more thicknesses, the
    thickness extraction does not raise and stores the declaration that
    the body's lines hold first, in the order they are written: the
    backward scan does not stop at its first match, and its last
    assignment stands. *)
Theorem thickness_from_first_declaration
    (qss : string) (orient : Orientation) (dim : string)
    (gs : groups) (content : string) (q : Q) (rest : list Q) (w : world) :
  search (groove_pattern (orient_name orient)) qss = Some gs ->
  group 0 gs = Some content ->
  declared dim (Str.splitlines content) = q :: rest ->
  exists w',
    find_bar_size qss orient dim w = (Ok tt, w')
    /\ get_thickness orient (_style (obj w')) = Some q
    /\ has_stylesheet (_style (obj w')) = true.
Proof.
  intros Hs Hg Hd.
  destruct (find_bar_size_run qss orient dim w) as [qs [Hrun Hqs]].
  rewrite (Hqs gs content Hs Hg), Hd in Hrun. cbn [rev] in Hrun.
  eexists. split; [exact Hrun|].
  apply (apply_declarations_last orient (rev rest) q).
Qed.

Lemma thickness_from_first_declaration_witness :
  exists w',
    find_bar_size two_heights Horizontal "height" (fresh two_heights)
    = (Ok tt, w')
    /\ get_thickness Horizontal (_style (obj w')) = Some 10%Q
    /\ has_stylesheet (_style (obj w')) = true.
Proof.
  apply (thickness_from_first_declaration two_heights Horizontal "height"
           [Some ("height: 10;" ++ newline ++ " height: 20; ")]
           ("height: 10;" ++ newline ++ " height: 20; ")
           10%Q [20%Q] (fresh two_heights));
    vm_compute; reflexivity.
Defined.

(** The extraction on the block with two heights: the stored thickness
    is the 10 of the first line, not the 20 of the last. *)
Example two_heights_extraction
    (isValid : string -> bool) (print_match : groups -> result unit) :
  exists w',
    update_styles_from_stylesheet isValid print_match [] "" (fresh two_heights)
    = (Ok tt, w')
    /\ horizontal_thickness (_style (obj w')) = Some 10%Q.
Proof.
  eexists. split; vm_compute; reflexivity.
Qed.

(* ================================================================== *)
(** ** The fill declarations *)

Section Fill.

Variable isValid : string -> bool.
Variable print_match : groups -> result unit.

Lemma bar_color_loop_skip (qss : string) (orientation : option string)
    (pre rest : list string) :
  (forall l, In l pre -> search background_pattern l = None) ->
  bar_color_loop isValid print_match qss orientation (pre ++ rest)
  = bar_color_loop isValid print_match qss orientation rest.
Proof.
  induction pre as [|l pre IH]; intros H; cbn [app bar_color_loop];
    [reflexivity|].
  rewrite (H l) by (left; reflexivity).
  apply IH. intros l' Hl'. apply H. right. exact Hl'.
Qed.

Lemma update_unfold (parents : list string) (app_qss : string) (w : world) :
  update_styles_from_stylesheet isValid print_match parents app_qss w
  = let own := styleSheet (obj w) in
    let qss := app_qss ++ parents_loop own parents own in
    match find_bar_color isValid print_match qss (with_style (set_has_stylesheet false) w)
    with
    | (Ok _, w1) =>
        match find_bar_size qss Horizontal "height" w1 with
        | (Ok _, w2) => find_bar_size qss Vertical "width" w2
        | (Raise e, w2) => (Raise e, w2)
        end
    | (Raise e, w1) => (Raise e, w1)
    end.
Proof. reflexivity. Qed.

(** After the first loop has run, the rest of the extraction does not
    raise and touches neither the fills nor the store. *)
Lemma sizes_after_color (qss : string) (w1 : world) :
  exists w',
    match find_bar_size qss Horizontal "height" w1 with
    | (Ok _, w2) => find_bar_size qss Vertical "width" w2
    | (Raise e, w2) => (Raise e, w2)
    end = (Ok tt, w')
    /\ objects w' = objects w1
    /\ brush_active (_style (obj w')) = brush_active (_style (obj w1))
    /\ brush_inactive (_style (obj w')) = brush_inactive (_style (obj w1))
    /\ brush_disabled (_style (obj w')) = brush_disabled (_style (obj w1))
    /\ (has_stylesheet (_style (obj w1)) = true ->
        has_stylesheet (_style (obj w')) = true).
Proof.
  destruct (find_bar_size_run qss Horizontal "height" w1) as [qh [Hh _]].
  rewrite Hh.
  destruct (find_bar_size_run qss Vertical "width"
              (with_style (apply_declarations Horizontal qh) w1))
    as [qv [Hv _]].
  rewrite Hv. eexists. split; [reflexivity|].
  cbn [with_style objects obj _style].
  destruct (apply_declarations_keeps Horizontal qh (_style (obj w1)))
    as [Ha [Hi [Hd Hs]]].
  destruct (apply_declarations_keeps Vertical qv
              (apply_declarations Horizontal qh (_style (obj w1))))
    as [Ha' [Hi' [Hd' Hs']]].
  cbv zeta in *. rewrite Ha', Hi', Hd', Ha, Hi, Hd.
  repeat split; auto.
Qed.

End Fill.

(** C4.  When the sub-page block is found and several lines of its body
    hold a fill declaration, the fill comes from the line that the
    backward scan meets first, which is the one written last: if
    [parse_color] returns a value for the text of that declaration, the
    extraction does not raise and the three fill fields hold that value,
    whatever the lines before it declare. *)
Theorem fill_from_last_declaration
    (isValid : string -> bool) (print_match : groups -> result unit)
    (parents : list string) (app_qss : string)
    (w : world) (gs : groups) (content : string)
    (before after : list string) (line : string) (bgrd : groups)
    (text : string) (v : value) (h' : heap) :
  search sub_page_pattern
    (app_qss ++ parents_loop (styleSheet (obj w)) parents (styleSheet (obj w)))
  = Some gs ->
  group 1 gs = Some content ->
  Str.splitlines content = (before ++ line :: after)%list ->
  search background_pattern line = Some bgrd ->
  last_group bgrd = Some text ->
  (forall l, In l after -> search background_pattern l = None) ->
  parse_color isValid print_match text (objects w) = (Ok v, h') ->
  exists w',
    update_styles_from_stylesheet isValid print_match parents app_qss w = (Ok tt, w')
    /\ brush_active (_style (obj w')) = Some v
    /\ brush_inactive (_style (obj w')) = Some v
    /\ brush_disabled (_style (obj w')) = Some v
    /\ has_stylesheet (_style (obj w')) = true
    /\ objects w' = h'.
Proof.
  intros Hs Hg Hl Hb Ht Hafter Hp.
  rewrite update_unfold. cbv zeta.
  set (qss := app_qss ++ _) in *.
  unfold find_bar_color. rewrite Hs, Hg, Hl.
  rewrite rev_app_distr. cbn [rev]. rewrite <- app_assoc. cbn [app].
  rewrite bar_color_loop_skip
    by (intros l Hin; apply Hafter; now apply in_rev).
  cbn [bar_color_loop]. rewrite Hb, Ht.
  unfold bind at 1. unfold on_heap at 1.
  cbn [with_style objects]. rewrite Hp.
  unfold bind, modify_style, setStyleSheet. cbn [obj objects _style class_name].
  match goal with
  | |- context [find_bar_size qss Horizontal "height" ?w1] =>
      destruct (sizes_after_color qss w1)
        as [w' [Hrun [Ho [Ha [Hi [Hd Hst]]]]]]
  end.
  exists w'. split; [exact Hrun|].
  rewrite Ha, Hi, Hd, Ho. cbn. repeat split; auto.
Qed.

Lemma fill_from_last_declaration_witness :
  exists w',
    update_styles_from_stylesheet hex_names quiet_stdout [] "" (fresh two_fills)
    = (Ok tt, w')
    /\ brush_active (_style (obj w')) = Some (VObj 0%nat)
    /\ brush_inactive (_style (obj w')) = Some (VObj 0%nat)
    /\ brush_disabled (_style (obj w')) = Some (VObj 0%nat)
    /\ has_stylesheet (_style (obj w')) = true
    /\ objects w' = [ObjColor (mkQColor "#222222" None)].
Proof.
  apply (fill_from_last_declaration hex_names quiet_stdout [] "" (fresh two_fills)
           [Some "horizontal";
            Some ("background-color: #111111;" ++ newline
                  ++ " background-color: #222222; ")]
           ("background-color: #111111;" ++ newline
            ++ " background-color: #222222; ")
           ["background-color: #111111;"] []
           " background-color: #222222; "
           [Some "-color"; Some "#222222"] "#222222"
           (VObj 0%nat) [ObjColor (mkQColor "#222222" None)]).
  all: try (vm_compute; reflexivity).
  intros l [].
Defined.

(** C7.  On a slider whose style record is wholly unset and whose
    collected stylesheet is the text of the scenario, the extraction does
    not raise; afterwards [has_stylesheet] is true, the three fill fields
    hold one and the same colour object, the [QColor] of "#ff0000", the
    horizontal thickness is 10 and the vertical one is still unset. *)
Theorem scenario_extraction
    (isValid : string -> bool) (print_match : groups -> result unit)
    (cls own app_qss : string)
    (parents : list string) (h : heap) :
  isValid "#ff0000" = true ->
  app_qss ++ parents_loop own parents own = scenario ->
  exists w',
    update_styles_from_stylesheet isValid print_match parents app_qss
      (mkWorld (mkSlider cls own unset_style) h) = (Ok tt, w')
    /\ has_stylesheet (_style (obj w')) = true
    /\ brush_active (_style (obj w')) = Some (VObj (List.length h))
    /\ brush_inactive (_style (obj w')) = Some (VObj (List.length h))
    /\ brush_disabled (_style (obj w')) = Some (VObj (List.length h))
    /\ nth_error (objects w') (List.length h)
       = Some (ObjColor (mkQColor "#ff0000" None))
    /\ horizontal_thickness (_style (obj w')) = Some 10%Q
    /\ vertical_thickness (_style (obj w')) = None.
Proof.
  intros Hvalid Hqss.
  rewrite update_unfold. cbv zeta. cbn [obj styleSheet]. rewrite Hqss.
  assert (Hc : find_bar_color isValid print_match scenario
                 (with_style (set_has_stylesheet false)
                    (mkWorld (mkSlider cls own unset_style) h))
               = (Ok tt,
                  mkWorld
                    (mkSlider cls
                       (scenario ++ newline ++ cls
                        ++ "::sub-page:horizontal{background: none}")
                       (set_has_stylesheet true
                          (set_brush_disabled (VObj (List.length h))
                             (set_brush_inactive (VObj (List.length h))
                                (set_brush_active (VObj (List.length h))
                                   unset_style)))))
                    (h ++ [ObjColor (mkQColor "#ff0000" None)])%list)).
  { unfold find_bar_color.
    replace (search sub_page_pattern scenario)
      with (Some [Some "horizontal"; Some "background-color: #ff0000; "])
      by (vm_compute; reflexivity).
    cbn [group nth].
    replace (rev (Str.splitlines "background-color: #ff0000; "))
      with ["background-color: #ff0000; "] by (vm_compute; reflexivity).
    cbn [bar_color_loop].
    replace (search background_pattern "background-color: #ff0000; ")
      with (Some [Some "-color"; Some "#ff0000"])
      by (vm_compute; reflexivity).
    cbn [last_group last].
    unfold bind at 1. unfold on_heap, parse_color, bind at 1, alloc.
    cbn [with_style objects]. rewrite Hvalid. reflexivity. }
  rewrite Hc.
  eexists. split.
  - vm_compute. reflexivity.
  - cbn [obj objects _style]. repeat split.
    rewrite nth_error_app2 by lia. now rewrite Nat.sub_diag.
Qed.

Lemma scenario_extraction_witness :
  exists w',
    update_styles_from_stylesheet hex_names quiet_stdout [] "" (fresh scenario)
    = (Ok tt, w')
    /\ has_stylesheet (_style (obj w')) = true
    /\ brush_active (_style (obj w')) = Some (VObj 0%nat)
    /\ brush_inactive (_style (obj w')) = Some (VObj 0%nat)
    /\ brush_disabled (_style (obj w')) = Some (VObj 0%nat)
    /\ nth_error (objects w') 0%nat
       = Some (ObjColor (mkQColor "#ff0000" None))
    /\ horizontal_thickness (_style (obj w')) = Some 10%Q
    /\ vertical_thickness (_style (obj w')) = None.
Proof.
  apply (scenario_extraction hex_names quiet_stdout "QRangeSlider" scenario "" [] []);
    reflexivity.
Defined.

(* ================================================================== *)
(** ** The colour parser *)

(** C1, as the code has it.  A text that is no valid colour name and
    matches neither gradient pattern makes [parse_color] raise
    [AttributeError], at the [groupdict] of the radial match that is
    [None]; the only object made is the invalid colour.  The fallback is
    not returned. *)
Theorem parse_color_unrecognized_raises
    (isValid : string -> bool) (print_match : groups -> result unit)
    (color : string) (h : heap) :
  isValid color = false ->
  match_ qlineargrad_pattern color = None ->
  match_ qradial_pattern color = None ->
  parse_color isValid print_match color h
  = (Raise AttributeError, (h ++ [ObjColor (mkQColor color None)])%list).
Proof.
  intros Hv Hl Hr. unfold parse_color, bind, alloc.
  rewrite Hv, Hl, Hr. reflexivity.
Qed.

Lemma parse_color_unrecognized_raises_witness :
  parse_color hex_names quiet_stdout "garbage" []
  = (Raise AttributeError, [ObjColor (mkQColor "garbage" None)]).
Proof.
  apply (parse_color_unrecognized_raises hex_names quiet_stdout "garbage" []);
    vm_compute; reflexivity.
Defined.

(** Whatever [parse_color] returns is a Qt object: the fallback text is
    returned for no input. *)
Lemma parse_color_returns_object
    (isValid : string -> bool) (print_match : groups -> result unit)
    (color : string) (h : heap) (v : value) :
  fst (parse_color isValid print_match color h) = Ok v -> exists l, v = VObj l.
Proof.
  unfold parse_color, bind, alloc, ret, raise, lift_result, groupdict,
    setColorAt.
  repeat match goal with
         | |- context [match ?x with _ => _ end] => destruct x eqn:?
         | |- context [if ?x then _ else _] => destruct x eqn:?
         end;
    cbn [fst]; try discriminate; intros [= <-]; eauto.
Qed.

Lemma parse_color_never_falls_back
    (isValid : string -> bool) (print_match : groups -> result unit)
    (color : string) (h : heap) :
  fst (parse_color isValid print_match color h) <> Ok (VStr "#333").
Proof.
  intros H. apply parse_color_returns_object in H.
  destruct H as [l H]. discriminate H.
Qed.

(* ================================================================== *)
(** ** More about the accessors and the selection *)

Lemma store_last (h : heap) (o o' : qobject) :
  store (List.length h) o' (h ++ [o])%list = (h ++ [o'])%list.
Proof.
  induction h as [|x h IH]; cbn; [reflexivity|]. now rewrite IH.
Qed.

(** The part of the brush accessor that works: a fill given as a text
    becomes a new colour object, and with ticks drawn that object gets
    the opacity the two records resolve to. *)
Lemma brush_text_with_ticks
    (sys self : RangeSliderStyle) (opt : QStyleOptionSlider)
    (h : heap) (s : string) (a : Q) :
  (brush_attr (currentColorGroup opt) self
   ||| brush_attr (currentColorGroup opt) sys) = Some (VStr s) ->
  (tick_bar_alpha self ||| tick_bar_alpha sys) = Some a ->
  tickPosition opt <> NoTicks ->
  brush sys self opt h
  = (Ok (Some (VObj (List.length h))),
     (h ++ [ObjColor (mkQColor s (Some a))])%list).
Proof.
  intros Hv Ha Ht. unfold brush. rewrite Hv, Ha.
  assert (Hn : tick_eqb (tickPosition opt) NoTicks = false)
    by (destruct (tickPosition opt); [contradiction|reflexivity..]).
  rewrite Hn. cbn [negb].
  unfold bind, ret, alloc, setAlphaF.
  rewrite nth_error_app2 by lia. rewrite Nat.sub_diag. cbn [nth_error].
  cbn [color_name]. now rewrite store_last.
Qed.

(** Without ticks the brush accessor hands on what the records resolve
    to, a gradient included. *)
Lemma brush_object_without_ticks
    (sys self : RangeSliderStyle) (opt : QStyleOptionSlider)
    (h : heap) (l : loc) :
  (brush_attr (currentColorGroup opt) self
   ||| brush_attr (currentColorGroup opt) sys) = Some (VObj l) ->
  tickPosition opt = NoTicks ->
  brush sys self opt h = (Ok (Some (VObj l)), h).
Proof.
  intros Hv Ht. unfold brush. rewrite Hv, Ht. reflexivity.
Qed.

(** A height of zero in the stylesheet is stored, and the thickness
    accessor then returns the platform default. *)
Example zero_height_extraction
    (isValid : string -> bool) (print_match : groups -> result unit) :
  exists w',
    update_styles_from_stylesheet isValid print_match [] "" (fresh zero_height)
    = (Ok tt, w')
    /\ horizontal_thickness (_style (obj w')) = Some 0%Q
    /\ thickness LINUX_STYLE (_style (obj w'))
         (mkOpt Active Horizontal NoTicks) = Some 4%Q.
Proof.
  eexists. split; [vm_compute; reflexivity|]. split; reflexivity.
Qed.

(** Whatever the selection returns is one of the four presets. *)
Lemma selected_is_preset (SYSTEM mac_ver : string) (s : RangeSliderStyle) :
  select_SYSTEM_STYLE SYSTEM mac_ver = Ok s -> In s presets.
Proof.
  unfold select_SYSTEM_STYLE, presets.
  destruct (String.eqb SYSTEM "Darwin").
  - destruct (py_int (fst (split_once "." mac_ver))) as [major|e];
      [|discriminate].
    destruct (11 <=? major); intros [= <-]; cbn; auto.
  - destruct (String.eqb SYSTEM "Windows"); [intros [= <-]; cbn; auto|].
    destruct (String.eqb SYSTEM "Linux"); intros [= <-]; cbn; auto.
Qed.

Lemma digit_is_no_space (c : ascii) :
  Str.isdigit c = true -> int_isspace c = false.
Proof.
  destruct c as [[] [] [] [] [] [] [] []]; cbn; intros H;
    try discriminate H; reflexivity.
Qed.

Lemma rev_onto_twice (s : string) :
  forall acc acc',
    Str.rev_onto acc' (Str.rev_onto acc s) = Str.rev_onto (s ++ acc') acc.
Proof.
  induction s as [|c s IH]; intros acc acc'; cbn; [reflexivity|].
  now rewrite IH.
Qed.

Lemma append_empty (s : string) : s ++ "" = s.
Proof. induction s as [|c s IH]; cbn; [reflexivity|now rewrite IH]. Qed.

Lemma all_chars_rev_onto (p : ascii -> bool) (s : string) :
  forall acc,
    Str.all_chars p (Str.rev_onto acc s)
    = Str.all_chars p s && Str.all_chars p acc.
Proof.
  induction s as [|c s IH]; intros acc; cbn; [reflexivity|].
  rewrite IH. cbn. destruct (p c), (Str.all_chars p s); reflexivity.
Qed.

Lemma lstrip_digits (s : string) : all_digits s = true -> lstrip s = s.
Proof.
  destruct s as [|c s]; cbn; [reflexivity|].
  intros H. apply andb_true_iff in H. destruct H as [Hc _].
  now rewrite (digit_is_no_space c Hc).
Qed.

Lemma strip_digits (s : string) : all_digits s = true -> strip s = s.
Proof.
  intros H. unfold strip. rewrite (lstrip_digits s H).
  rewrite lstrip_digits.
  - rewrite rev_onto_twice. cbn. apply append_empty.
  - unfold all_digits in *. rewrite all_chars_rev_onto, H. reflexivity.
Qed.

Lemma int_digits_of_digits (s : string) :
  forall (acc : Z) (after_digit : bool),
    all_digits s = true ->
    s <> "" \/ after_digit = true ->
    int_digits acc after_digit s = Some (digits_value acc s).
Proof.
  unfold all_digits.
  induction s as [|c s IH]; intros acc b Hd Hne; cbn.
  - destruct Hne as [Hne | ->]; [contradiction|reflexivity].
  - cbn in Hd. apply andb_true_iff in Hd. destruct Hd as [Hc Hs].
    rewrite Hc. apply IH; auto.
Qed.

Lemma count_digits_all (s : string) :
  all_digits s = true -> count_digits s = String.length s.
Proof.
  unfold all_digits. induction s as [|c s IH]; cbn; [reflexivity|].
  intros H. apply andb_true_iff in H. destruct H as [Hc Hs].
  now rewrite Hc, (IH Hs).
Qed.

(** [int] takes every text of digits that is not empty and not longer
    than the limit. *)
Lemma py_int_digits (s : string) :
  s <> "" -> all_digits s = true ->
  (String.length s <= int_max_str_digits)%nat ->
  py_int s = Ok (digits_value 0 s).
Proof.
  intros Hne Hd Hlen. unfold py_int. rewrite (strip_digits s Hd).
  rewrite (count_digits_all s Hd).
  apply Nat.leb_le in Hlen. rewrite Hlen. clear Hlen.
  pose proof (int_digits_of_digits s 0 false Hd (or_introl Hne)) as Hi.
  destruct s as [|c s]; [contradiction|].
  assert (Hc : Str.isdigit c = true).
  { unfold all_digits in Hd. cbn in Hd.
    now apply andb_true_iff in Hd. }
  destruct c as [[] [] [] [] [] [] [] []]; try discriminate Hc;
    now rewrite Hi.
Qed.

Lemma split_once_at_point (a b : string) :
  all_digits a = true -> split_once "." (a ++ "." ++ b) = (a, Some b).
Proof.
  unfold all_digits. induction a as [|c a IH]; cbn; [reflexivity|].
  intros H. apply andb_true_iff in H. destruct H as [Hc Ha].
  rewrite (digit_is_no_point c Hc). cbn in IH. now rewrite (IH Ha).
Qed.

(** On Darwin, a version that starts with digits, no more of them than
    the limit of [int], and a point selects by the number the digits
    spell. *)
Lemma select_on_darwin (major rest : string) :
  major <> "" -> all_digits major = true ->
  (String.length major <= int_max_str_digits)%nat ->
  select_SYSTEM_STYLE "Darwin" (major ++ "." ++ rest)
  = Ok (if 11 <=? digits_value 0 major
        then BIG_SUR_STYLE else CATALINA_STYLE).
Proof.
  intros Hne Hd Hlen. unfold select_SYSTEM_STYLE.
  cbn [String.eqb Ascii.eqb Bool.eqb].
  rewrite (split_once_at_point major rest Hd). cbn [fst].
  rewrite (py_int_digits major Hne Hd Hlen).
  destruct (11 <=? digits_value 0 major); reflexivity.
Qed.

(* ================================================================== *)
(** ** The matcher against the texts a pattern matches *)

Lemma take_drop (n : nat) (s : string) : Str.take n s ++ Str.drop n s = s.
Proof.
  revert s. induction n as [|n IH]; intros [|c s]; cbn; auto.
  now rewrite IH.
Qed.

Lemma starts_with_split (l s : string) :
  Str.starts_with l s = true -> s = l ++ Str.drop (String.length l) s.
Proof.
  revert s. induction l as [|a l IH]; intros [|b s]; cbn; auto;
    try discriminate.
  intros H. apply andb_true_iff in H. destruct H as [Hab Hl].
  apply Ascii.eqb_eq in Hab. subst b. now rewrite <- (IH s Hl).
Qed.

Lemma length_append (a b : string) :
  String.length (a ++ b) = (String.length a + String.length b)%nat.
Proof. induction a as [|c a IH]; cbn; auto. Qed.

Lemma take_append (a b : string) : Str.take (String.length a) (a ++ b) = a.
Proof. induction a as [|c a IH]; cbn; [now destruct b|now rewrite IH]. Qed.

Lemma consumed_append (v s' : string) : Str.consumed (v ++ s') s' = v.
Proof.
  unfold Str.consumed. rewrite length_append.
  replace (String.length v + String.length s' - String.length s')%nat
    with (String.length v) by lia.
  apply take_append.
Qed.

Lemma append_assoc (a b c : string) : (a ++ b) ++ c = a ++ (b ++ c).
Proof. induction a as [|x a IH]; cbn; [reflexivity|now rewrite IH]. Qed.

Lemma nth_set_group_other (i j : nat) (v : string) (gs : groups) :
  i <> j -> nth j (set_group i v gs) None = nth j gs None.
Proof.
  revert i j. induction gs as [|g gs IH]; intros [|i] [|j] H; cbn; auto;
    try contradiction.
Qed.

Lemma set_group_beyond (i : nat) (v : string) (gs : groups) :
  (List.length gs <= i)%nat -> set_group i v gs = gs.
Proof.
  revert i. induction gs as [|g gs IH]; intros [|i] H; cbn in *; auto; try lia.
  rewrite IH by lia. reflexivity.
Qed.

Lemma star_split {A : Type} (k : cclass) (cont : string -> option A)
    (s : string) (a : A) :
  star k cont s = Some a ->
  exists v s', s = v ++ s' /\ Str.all_chars (cmatch k) v = true
               /\ cont s' = Some a.
Proof.
  intros H. apply star_inv in H. destruct H as [n [_ [Hall H]]].
  exists (Str.take n s), (Str.drop n s). now rewrite take_drop.
Qed.

(** The matcher is sound: when it succeeds it has split the text into a
    part the pattern matches and the rest it handed on, and every group
    either is as it was or holds a text that the body of a group of that
    number matches. *)
Lemma exec_sound {A : Type} (r : regex) :
  forall (gs : groups) (s : string)
         (cont : groups -> string -> option A) (a : A),
    exec r gs s cont = Some a ->
    exists v s' gs',
      s = v ++ s' /\ matches r v /\ cont gs' s' = Some a
      /\ List.length gs' = List.length gs
      /\ forall j,
           nth j gs' None = nth j gs None
           \/ exists r' v', In r' (group_bodies j r) /\ matches r' v'
                            /\ nth j gs' None = Some v'.
Proof.
  induction r as [l|k|k|k|r IH|i r IH|r1 IH1 r2 IH2];
    intros gs s cont a; cbn [exec group_bodies].
  - destruct (Str.starts_with l s) eqn:E; [|discriminate].
    intros H. exists l, (Str.drop (String.length l) s), gs.
    split; [now apply starts_with_split|].
    split; [constructor|]. auto.
  - destruct s as [|c s]; [discriminate|].
    destruct (cmatch k c) eqn:E; [|discriminate].
    intros H. exists (String c ""), s, gs.
    split; [reflexivity|]. split; [now constructor|]. auto.
  - intros H. apply star_split in H. destruct H as [v [s' [-> [Hall H]]]].
    exists v, s', gs. split; [reflexivity|]. split; [now constructor|]. auto.
  - destruct s as [|c s]; [discriminate|].
    destruct (cmatch k c) eqn:E; [|discriminate].
    intros H. apply star_split in H. destruct H as [v [s' [-> [Hall H]]]].
    exists (String c v), s', gs. split; [reflexivity|].
    split; [constructor; [discriminate|cbn; now rewrite E, Hall]|]. auto.
  - destruct (exec r gs s cont) as [a'|] eqn:E.
    + intros [= <-].
      destruct (IH _ _ _ _ E) as [v [s' [gs' [-> [Hm [Hc [Hl Hg]]]]]]].
      exists v, s', gs'. split; [reflexivity|].
      split; [now apply MOptSome|]. auto.
    + intros H. exists "", s, gs. split; [reflexivity|].
      split; [constructor|]. auto.
  - intros H.
    destruct (IH _ _ _ _ H) as [v [s' [gs1 [-> [Hm [Hc [Hl Hg]]]]]]].
    rewrite consumed_append in Hc.
    exists v, s', (set_group i v gs1). split; [reflexivity|].
    split; [now constructor|]. split; [exact Hc|].
    split; [now rewrite set_group_length|].
    intros j. destruct (Nat.eqb i j) eqn:Eij.
    + apply Nat.eqb_eq in Eij. subst j.
      destruct (Nat.lt_ge_cases i (List.length gs1)) as [Hlt|Hge].
      * right. exists r, v. split; [left; reflexivity|].
        split; [exact Hm|]. now apply set_group_sets.
      * rewrite set_group_beyond by exact Hge.
        destruct (Hg i) as [Hj|[r' [v' [Hin Hj]]]]; [left; exact Hj|].
        right. exists r', v'. split; [right; exact Hin|exact Hj].
    + apply Nat.eqb_neq in Eij. rewrite nth_set_group_other by exact Eij.
      destruct (Hg j) as [Hj|[r' [v' [Hin Hj]]]]; [left; exact Hj|].
      right. exists r', v'. split; [exact Hin|exact Hj].
  - intros H.
    destruct (IH1 _ _ _ _ H) as [v1 [s1 [gs1 [-> [Hm1 [Hc1 [Hl1 Hg1]]]]]]].
    destruct (IH2 _ _ _ _ Hc1) as [v2 [s2 [gs2 [-> [Hm2 [Hc2 [Hl2 Hg2]]]]]]].
    exists (v1 ++ v2), s2, gs2. split; [now rewrite append_assoc|].
    split; [now constructor|]. split; [exact Hc2|].
    split; [congruence|].
    intros j. destruct (Hg2 j) as [Hj2|[r' [v' [Hin Hj2]]]].
    + destruct (Hg1 j) as [Hj1|[r' [v' [Hin Hj1]]]].
      * left. congruence.
      * right. exists r', v'. split; [apply in_or_app; left; exact Hin|].
        split; [tauto|]. rewrite Hj2. tauto.
    + right. exists r', v'. split; [apply in_or_app; right; exact Hin|].
      exact Hj2.
Qed.

(** A match sets every group either to nothing or to a text that the body
    of a group of that number matches. *)
Lemma match_sound (r : regex) (s : string) (gs : groups) (j : nat)
    (v : string) :
  match_ r s = Some gs ->
  nth j gs None = Some v ->
  exists r', In r' (group_bodies j r) /\ matches r' v.
Proof.
  unfold match_. intros H Hv. apply exec_sound in H.
  destruct H as [_ [_ [gs' [_ [_ [[= <-] [_ Hg]]]]]]].
  destruct (Hg j) as [Hj|[r' [v' [Hin [Hm Hj]]]]].
  - rewrite Hv in Hj. exfalso.
    destruct (Nat.lt_ge_cases j (List.length (repeat (@None string) (ngroups r))))
      as [Hlt|Hge].
    + symmetry in Hj.
      pose proof (nth_In _ None Hlt) as Hin. rewrite Hj in Hin.
      apply repeat_spec in Hin. discriminate.
    + rewrite nth_overflow in Hj by exact Hge. discriminate.
  - rewrite Hv in Hj. injection Hj as <-. eauto.
Qed.

(* ================================================================== *)
(** ** The colour parser on the three kinds of text it knows *)

Lemma all_chars_append (p : ascii -> bool) (a b : string) :
  Str.all_chars p (a ++ b) = Str.all_chars p a && Str.all_chars p b.
Proof.
  induction a as [|c a IH]; cbn; [reflexivity|].
  rewrite IH. now rewrite andb_assoc.
Qed.

(** [float] takes every text the number of the gradient patterns
    matches. *)
Lemma decimal_floats (v : string) :
  matches decimal v -> exists q, py_float v = Ok q.
Proof.
  unfold decimal. cbn [cat]. intros H.
  inversion H as [| | | | | | |r1 r2 v1 v23 H1 H23]; subst.
  inversion H1 as [| |k w Hd1| | | | |]; subst.
  inversion H23 as [| | | | | | |r1 r2 v2 v3 H2 H3]; subst.
  inversion H3 as [| | |k w Hne Hd3| | | |]; subst.
  change (Str.all_chars (cmatch Digit) v1 = true) with (all_digits v1 = true)
    in Hd1.
  change (Str.all_chars (cmatch Digit) v3 = true) with (all_digits v3 = true)
    in Hd3.
  inversion H2 as [| | | |r|r w Hp| |]; subst.
  - cbn [append]. eexists. apply py_float_digits.
    + destruct v1; cbn; [exact Hne|discriminate].
    + unfold all_digits in *. now rewrite all_chars_append, Hd1, Hd3.
  - inversion Hp as [|k c Hc| | | | | |]; subst.
    cbn [cmatch] in Hc. apply Ascii.eqb_eq in Hc. subst c.
    unfold py_float.
    rewrite (split_once_at_point v1 v3 Hd1), Hd1, Hd3.
    assert (Hn : String.eqb (v1 ++ v3) "" = false).
    { destruct v1; cbn; [|reflexivity].
      destruct v3; [contradiction|reflexivity]. }
    rewrite Hn. cbn. eauto.
Qed.

Lemma new_linear_gradient (h : heap) (x1 y1 x2 y2 : Q) (c0 c1 : QColor) :
  (grad <- alloc (ObjLinearGradient x1 y1 x2 y2 []) ;;
   setColorAt grad 0 c0 ;;; setColorAt grad 1 c1 ;;; ret (VObj grad)) h
  = (Ok (VObj (List.length h)),
     (h ++ [ObjLinearGradient x1 y1 x2 y2 [(0%Q, c0); (1%Q, c1)]])%list).
Proof.
  unfold bind, alloc, setColorAt, ret.
  rewrite nth_error_app2 by lia. rewrite Nat.sub_diag. cbn [nth_error].
  rewrite store_last.
  rewrite nth_error_app2 by lia. rewrite Nat.sub_diag. cbn [nth_error].
  now rewrite store_last.
Qed.

Lemma new_radial_gradient (h : heap) (cx cy r fx fy : Q) (c0 c1 : QColor) :
  (grad <- alloc (ObjRadialGradient cx cy r fx fy []) ;;
   setColorAt grad 0 c0 ;;; setColorAt grad 1 c1 ;;; ret (VObj grad)) h
  = (Ok (VObj (List.length h)),
     (h ++ [ObjRadialGradient cx cy r fx fy [(0%Q, c0); (1%Q, c1)]])%list).
Proof.
  unfold bind, alloc, setColorAt, ret.
  rewrite nth_error_app2 by lia. rewrite Nat.sub_diag. cbn [nth_error].
  rewrite store_last.
  rewrite nth_error_app2 by lia. rewrite Nat.sub_diag. cbn [nth_error].
  now rewrite store_last.
Qed.

(** A group of a gradient match whose body is the number pattern holds a
    text that [float] takes. *)
Lemma decimal_group_floats (r : regex) (s : string) (gs : groups) (j : nat) :
  match_ r s = Some gs ->
  group_bodies j r = [decimal] ->
  is_set j gs ->
  exists v q, nth j gs None = Some v /\ py_float v = Ok q.
Proof.
  intros Hm Hb Hs. unfold is_set in Hs.
  destruct (nth j gs None) as [v|] eqn:Ev; [|contradiction].
  destruct (match_sound r s gs j v Hm Ev) as [r' [Hin Hr']].
  rewrite Hb in Hin. destruct Hin as [<-|[]].
  destruct (decimal_floats v Hr') as [q Hq]. eauto.
Qed.

Ltac new_gradient_store :=
  unfold bind, alloc, lift_result, color_of_group, group, setColorAt, ret;
  cbn [nth];
  repeat (rewrite nth_error_app2 by lia; rewrite Nat.sub_diag;
          cbn [nth_error]; rewrite store_last);
  rewrite <- app_assoc; cbn [app];
  rewrite length_app; cbn [List.length]; rewrite Nat.add_1_r;
  reflexivity.

(** What [parse_color] does on a match of the linear pattern. *)
Lemma linear_gradient_parsed
    (isValid : string -> bool) (print_match : groups -> result unit)
    (color : string) (h : heap) (gs : groups) :
  isValid color = false ->
  match_ qlineargrad_pattern color = Some gs ->
  exists x1 y1 x2 y2 stop0 stop1,
    floats (firstn 4 gs) = Ok [x1; y1; x2; y2]
    /\ group 4 gs = Some stop0 /\ group 5 gs = Some stop1
    /\ parse_color isValid print_match color h
       = (Ok (VObj (S (List.length h))),
          (h ++ [ObjColor (mkQColor color None);
                 ObjLinearGradient x1 y1 x2 y2
                   [(0%Q, mkQColor stop0 None);
                    (1%Q, mkQColor stop1 None)]])%list).
Proof.
  intros Hv Hm.
  destruct (match_inv _ _ _ Hm) as [Hlen Hset].
  assert (S0 : is_set 0 gs) by (apply Hset; [reflexivity|cbn; lia]).
  assert (S1 : is_set 1 gs) by (apply Hset; [reflexivity|cbn; lia]).
  assert (S2 : is_set 2 gs) by (apply Hset; [reflexivity|cbn; lia]).
  assert (S3 : is_set 3 gs) by (apply Hset; [reflexivity|cbn; lia]).
  assert (S4 : is_set 4 gs) by (apply Hset; [reflexivity|cbn; lia]).
  assert (S5 : is_set 5 gs) by (apply Hset; [reflexivity|cbn; lia]).
  destruct (decimal_group_floats _ _ _ 0%nat Hm eq_refl S0) as [v0 [q0 [E0 F0]]].
  destruct (decimal_group_floats _ _ _ 1%nat Hm eq_refl S1) as [v1 [q1 [E1 F1]]].
  destruct (decimal_group_floats _ _ _ 2%nat Hm eq_refl S2) as [v2 [q2 [E2 F2]]].
  destruct (decimal_group_floats _ _ _ 3%nat Hm eq_refl S3) as [v3 [q3 [E3 F3]]].
  cbn in Hlen.
  destruct gs as [|g0 [|g1 [|g2 [|g3 [|g4 [|g5 [|]]]]]]]; try discriminate Hlen.
  cbn in E0, E1, E2, E3. subst g0 g1 g2 g3.
  unfold is_set in S4, S5. cbn in S4, S5.
  destruct g4 as [stop0|]; [|contradiction].
  destruct g5 as [stop1|]; [|contradiction].
  exists q0, q1, q2, q3, stop0, stop1.
  assert (Hf : floats (firstn 4 [Some v0; Some v1; Some v2; Some v3;
                                 Some stop0; Some stop1])
               = Ok [q0; q1; q2; q3]).
  { cbn [firstn floats float_group]. now rewrite F0, F1, F2, F3. }
  split; [exact Hf|]. split; [reflexivity|]. split; [reflexivity|].
  unfold parse_color. unfold bind at 1. unfold alloc at 1.
  rewrite Hv, Hm. unfold bind at 1. unfold lift_result at 1. rewrite Hf.
  new_gradient_store.
Qed.

(** A text that Qt finds no valid colour and that the linear pattern
    matches gives a new linear gradient: its four coordinates are the
    numbers of the first four groups, and it has two stops, at 0 the
    colour named by the group stop0 and at 1 the colour named by the
    group stop1.  Nothing is raised, and the objects that were in the
    store stay as they were. *)
Theorem parse_color_linear_gradient
    (isValid : string -> bool) (print_match : groups -> result unit)
    (color : string) (h : heap) (gs : groups) :
  isValid color = false ->
  match_ qlineargrad_pattern color = Some gs ->
  exists x1 y1 x2 y2 stop0 stop1,
    floats (firstn 4 gs) = Ok [x1; y1; x2; y2]
    /\ group 4 gs = Some stop0 /\ group 5 gs = Some stop1
    /\ parse_color isValid print_match color h
       = (Ok (VObj (S (List.length h))),
          (h ++ [ObjColor (mkQColor color None);
                 ObjLinearGradient x1 y1 x2 y2
                   [(0%Q, mkQColor stop0 None);
                    (1%Q, mkQColor stop1 None)]])%list).
Proof. exact (linear_gradient_parsed isValid print_match color h gs). Qed.

Lemma parse_color_linear_gradient_witness :
  exists x1 y1 x2 y2 stop0 stop1,
    floats (firstn 4 [Some "0"; Some "0"; Some "1"; Some ".5";
                      Some "#fff"; Some "#000"])
    = Ok [x1; y1; x2; y2]
    /\ group 4 [Some "0"; Some "0"; Some "1"; Some ".5";
                Some "#fff"; Some "#000"] = Some stop0
    /\ group 5 [Some "0"; Some "0"; Some "1"; Some ".5";
                Some "#fff"; Some "#000"] = Some stop1
    /\ parse_color hex_names quiet_stdout
         "qlineargradient(x1:0, y1:0, x2:1, y2:.5, stop:0 #fff, stop:0.5 red, stop:1 #000)"
         []
       = (Ok (VObj 1%nat),
          [ObjColor (mkQColor
             "qlineargradient(x1:0, y1:0, x2:1, y2:.5, stop:0 #fff, stop:0.5 red, stop:1 #000)"
             None);
           ObjLinearGradient x1 y1 x2 y2
             [(0%Q, mkQColor stop0 None); (1%Q, mkQColor stop1 None)]]).
Proof.
  apply (parse_color_linear_gradient hex_names quiet_stdout
           "qlineargradient(x1:0, y1:0, x2:1, y2:.5, stop:0 #fff, stop:0.5 red, stop:1 #000)"
           []
           [Some "0"; Some "0"; Some "1"; Some ".5"; Some "#fff"; Some "#000"]);
    vm_compute; reflexivity.
Defined.

(** What [parse_color] does on a match of the radial pattern. *)
Lemma radial_gradient_parsed
    (isValid : string -> bool) (print_match : groups -> result unit)
    (color : string) (h : heap) (gs : groups) :
  isValid color = false ->
  match_ qlineargrad_pattern color = None ->
  match_ qradial_pattern color = Some gs ->
  print_match gs = Ok tt ->
  exists cx cy radius fx fy stop0 stop1,
    floats (firstn 5 gs) = Ok [cx; cy; radius; fx; fy]
    /\ group 5 gs = Some stop0 /\ group 6 gs = Some stop1
    /\ parse_color isValid print_match color h
       = (Ok (VObj (S (List.length h))),
          (h ++ [ObjColor (mkQColor color None);
                 ObjRadialGradient cx cy radius fx fy
                   [(0%Q, mkQColor stop0 None);
                    (1%Q, mkQColor stop1 None)]])%list).
Proof.
  intros Hv Hl Hm Hprint.
  destruct (match_inv _ _ _ Hm) as [Hlen Hset].
  assert (S0 : is_set 0 gs) by (apply Hset; [reflexivity|cbn; lia]).
  assert (S1 : is_set 1 gs) by (apply Hset; [reflexivity|cbn; lia]).
  assert (S2 : is_set 2 gs) by (apply Hset; [reflexivity|cbn; lia]).
  assert (S3 : is_set 3 gs) by (apply Hset; [reflexivity|cbn; lia]).
  assert (S4 : is_set 4 gs) by (apply Hset; [reflexivity|cbn; lia]).
  assert (S5 : is_set 5 gs) by (apply Hset; [reflexivity|cbn; lia]).
  assert (S6 : is_set 6 gs) by (apply Hset; [reflexivity|cbn; lia]).
  destruct (decimal_group_floats _ _ _ 0%nat Hm eq_refl S0) as [v0 [q0 [E0 F0]]].
  destruct (decimal_group_floats _ _ _ 1%nat Hm eq_refl S1) as [v1 [q1 [E1 F1]]].
  destruct (decimal_group_floats _ _ _ 2%nat Hm eq_refl S2) as [v2 [q2 [E2 F2]]].
  destruct (decimal_group_floats _ _ _ 3%nat Hm eq_refl S3) as [v3 [q3 [E3 F3]]].
  destruct (decimal_group_floats _ _ _ 4%nat Hm eq_refl S4) as [v4 [q4 [E4 F4]]].
  cbn in Hlen.
  destruct gs as [|g0 [|g1 [|g2 [|g3 [|g4 [|g5 [|g6 [|]]]]]]]];
    try discriminate Hlen.
  cbn in E0, E1, E2, E3, E4. subst g0 g1 g2 g3 g4.
  unfold is_set in S5, S6. cbn in S5, S6.
  destruct g5 as [stop0|]; [|contradiction].
  destruct g6 as [stop1|]; [|contradiction].
  exists q0, q1, q2, q3, q4, stop0, stop1.
  assert (Hf : floats (firstn 5 [Some v0; Some v1; Some v2; Some v3; Some v4;
                                 Some stop0; Some stop1])
               = Ok [q0; q1; q2; q3; q4]).
  { cbn [firstn floats float_group]. now rewrite F0, F1, F2, F3, F4. }
  split; [exact Hf|]. split; [reflexivity|]. split; [reflexivity|].
  unfold parse_color. unfold bind at 1. unfold alloc at 1.
  rewrite Hv, Hl, Hm. unfold bind at 1. unfold lift_result at 1.
  unfold groupdict. unfold bind at 1. unfold lift_result at 1.
  rewrite Hprint. unfold bind at 1. unfold lift_result at 1. rewrite Hf.
  new_gradient_store.
Qed.

(** A text that Qt finds no valid colour, that the linear pattern does
    not match and that the radial pattern matches, and a standard output
    that takes the line [print] writes about the match: [parse_color]
    returns a new radial gradient; centre, radius and focal point are the
    numbers of the first five groups, and its two stops are the colours
    named by the groups stop0 and stop1.  The objects that were in the
    store stay as they were. *)
Theorem parse_color_radial_gradient
    (isValid : string -> bool) (print_match : groups -> result unit)
    (color : string) (h : heap) (gs : groups) :
  isValid color = false ->
  match_ qlineargrad_pattern color = None ->
  match_ qradial_pattern color = Some gs ->
  print_match gs = Ok tt ->
  exists cx cy radius fx fy stop0 stop1,
    floats (firstn 5 gs) = Ok [cx; cy; radius; fx; fy]
    /\ group 5 gs = Some stop0 /\ group 6 gs = Some stop1
    /\ parse_color isValid print_match color h
       = (Ok (VObj (S (List.length h))),
          (h ++ [ObjColor (mkQColor color None);
                 ObjRadialGradient cx cy radius fx fy
                   [(0%Q, mkQColor stop0 None);
                    (1%Q, mkQColor stop1 None)]])%list).
Proof. exact (radial_gradient_parsed isValid print_match color h gs). Qed.

Lemma parse_color_radial_gradient_witness :
  exists cx cy radius fx fy stop0 stop1,
    floats (firstn 5 [Some "0"; Some "0"; Some "1"; Some "0.5"; Some "0.5";
                      Some "white"; Some "green"])
    = Ok [cx; cy; radius; fx; fy]
    /\ group 5 [Some "0"; Some "0"; Some "1"; Some "0.5"; Some "0.5";
                Some "white"; Some "green"] = Some stop0
    /\ group 6 [Some "0"; Some "0"; Some "1"; Some "0.5"; Some "0.5";
                Some "white"; Some "green"] = Some stop1
    /\ parse_color hex_names quiet_stdout
         "qradialgradient(cx:0, cy:0, radius: 1, fx:0.5, fy:0.5, stop:0 white, stop:1 green)"
         []
       = (Ok (VObj 1%nat),
          [ObjColor (mkQColor
             "qradialgradient(cx:0, cy:0, radius: 1, fx:0.5, fy:0.5, stop:0 white, stop:1 green)"
             None);
           ObjRadialGradient cx cy radius fx fy
             [(0%Q, mkQColor stop0 None); (1%Q, mkQColor stop1 None)]]).
Proof.
  apply (parse_color_radial_gradient hex_names quiet_stdout
           "qradialgradient(cx:0, cy:0, radius: 1, fx:0.5, fy:0.5, stop:0 white, stop:1 green)"
           []
           [Some "0"; Some "0"; Some "1"; Some "0.5"; Some "0.5";
            Some "white"; Some "green"]);
    vm_compute; reflexivity.
Defined.

(** Every outcome of [parse_color].  It raises [AttributeError] on an
    unrecognized text; on a radial match it raises what [print] raises,
    if it does; otherwise it returns a reference to an object that was
    not in the store before.  The store only grows. *)
Lemma parse_color_outcome
    (isValid : string -> bool) (print_match : groups -> result unit)
    (color : string) (h : heap) :
  (parse_color isValid print_match color h
   = (Raise AttributeError, (h ++ [ObjColor (mkQColor color None)])%list)
   /\ isValid color = false
   /\ match_ qlineargrad_pattern color = None
   /\ match_ qradial_pattern color = None)
  \/ (exists gs e,
        parse_color isValid print_match color h
        = (Raise e, (h ++ [ObjColor (mkQColor color None)])%list)
        /\ isValid color = false
        /\ match_ qlineargrad_pattern color = None
        /\ match_ qradial_pattern color = Some gs
        /\ print_match gs = Raise e)
  \/ exists l new,
       parse_color isValid print_match color h = (Ok (VObj l), (h ++ new)%list)
       /\ (List.length h <= l < List.length (h ++ new))%nat.
Proof.
  destruct (isValid color) eqn:Hv.
  - right. right. exists (List.length h), [ObjColor (mkQColor color None)].
    split.
    + unfold parse_color, bind, alloc, ret. now rewrite Hv.
    + rewrite length_app. cbn. lia.
  - destruct (match_ qlineargrad_pattern color) as [gs|] eqn:Hl.
    + right. right.
      destruct (linear_gradient_parsed isValid print_match color h gs Hv Hl)
        as [x1 [y1 [x2 [y2 [s0 [s1 [_ [_ [_ H]]]]]]]]].
      eexists _, _. split; [exact H|].
      rewrite length_app. cbn. lia.
    + destruct (match_ qradial_pattern color) as [gs|] eqn:Hr.
      * destruct (print_match gs) as [[]|e] eqn:Hp.
        -- right. right.
           destruct (radial_gradient_parsed isValid print_match color h gs
                       Hv Hl Hr Hp)
             as [cx [cy [r [fx [fy [s0 [s1 [_ [_ [_ H]]]]]]]]]].
           eexists _, _. split; [exact H|].
           rewrite length_app. cbn. lia.
        -- right. left. exists gs, e. split; [|auto].
           unfold parse_color, bind, alloc, lift_result, groupdict.
           now rewrite Hv, Hl, Hr, Hp.
      * left. split; [|auto].
        unfold parse_color, bind, alloc. now rewrite Hv, Hl, Hr.
Qed.

(** When [parse_color] raises, either the text is an unrecognized one
    (no valid colour name and no match of either gradient pattern) and
    the exception is [AttributeError], or the text matched the radial
    pattern and the exception is the one that [print] raised on writing
    its line.  Nothing else raises: the numbers and the stops of a
    gradient match are always there and always convert. *)
Theorem parse_color_raise_cases
    (isValid : string -> bool) (print_match : groups -> result unit)
    (color : string) (h h' : heap) (e : exn) :
  parse_color isValid print_match color h = (Raise e, h') ->
  isValid color = false
  /\ match_ qlineargrad_pattern color = None
  /\ ((e = AttributeError /\ match_ qradial_pattern color = None)
      \/ exists gs, match_ qradial_pattern color = Some gs
                    /\ print_match gs = Raise e).
Proof.
  intros H.
  destruct (parse_color_outcome isValid print_match color h)
    as [[Hp [Hv [Hl Hr]]]|[[gs [e' [Hp [Hv [Hl [Hr Hpr]]]]]]|[l [new [Hp _]]]]];
    rewrite Hp in H.
  - injection H as <- _. auto.
  - injection H as <- _. split; [exact Hv|]. split; [exact Hl|].
    right. eauto.
  - discriminate H.
Qed.

Lemma parse_color_raise_cases_witness :
  hex_names "garbage" = false
  /\ match_ qlineargrad_pattern "garbage" = None
  /\ ((AttributeError = AttributeError
       /\ match_ qradial_pattern "garbage" = None)
      \/ exists gs, match_ qradial_pattern "garbage" = Some gs
                    /\ quiet_stdout gs = Raise AttributeError).
Proof.
  apply (parse_color_raise_cases hex_names quiet_stdout "garbage" []
           [ObjColor (mkQColor "garbage" None)] AttributeError).
  vm_compute. reflexivity.
Defined.

(** [parse_color] only adds to the store: the objects that were there
    are still there, unchanged and at their place, and a returned
    reference points at one of the objects added. *)
Theorem parse_color_extends_store
    (isValid : string -> bool) (print_match : groups -> result unit)
    (color : string) (h : heap) :
  exists new,
    snd (parse_color isValid print_match color h) = (h ++ new)%list
    /\ forall v, fst (parse_color isValid print_match color h) = Ok v ->
         exists l, v = VObj l
                   /\ (List.length h <= l < List.length (h ++ new))%nat.
Proof.
  destruct (parse_color_outcome isValid print_match color h)
    as [[Hp _]|[[gs [e [Hp _]]]|[l [new [Hp Hl]]]]]; rewrite Hp; cbn [fst snd].
  - eexists. split; [reflexivity|]. discriminate.
  - eexists. split; [reflexivity|]. discriminate.
  - exists new. split; [reflexivity|]. intros v [= <-]. eauto.
Qed.

(* ================================================================== *)
(** ** The brush and the pen *)

Lemma set_alpha_last (h : heap) (s : string) (a : Q) :
  setAlphaF (Some (VObj (List.length h))) (Some a)
    (h ++ [ObjColor (mkQColor s None)])%list
  = (Ok tt, (h ++ [ObjColor (mkQColor s (Some a))])%list).
Proof.
  unfold setAlphaF. rewrite nth_error_app2 by lia. rewrite Nat.sub_diag.
  cbn [nth_error color_name]. now rewrite store_last.
Qed.

(** A fill given as a text: the brush is a new colour object of that
    name. *)
Lemma brush_text
    (sys self : RangeSliderStyle) (opt : QStyleOptionSlider)
    (h : heap) (s : string) (a : Q) :
  (brush_attr (currentColorGroup opt) self
   ||| brush_attr (currentColorGroup opt) sys) = Some (VStr s) ->
  (tick_bar_alpha self ||| tick_bar_alpha sys) = Some a ->
  brush sys self opt h
  = (Ok (Some (VObj (List.length h))),
     (h ++ [ObjColor (mkQColor s (drawn_alpha opt a))])%list).
Proof.
  intros Hv Ha. unfold brush, drawn_alpha. rewrite Hv, Ha.
  destruct (tick_eqb (tickPosition opt) NoTicks); cbn [negb].
  - reflexivity.
  - unfold bind at 1. unfold bind at 1. unfold alloc, ret at 1.
    unfold bind. rewrite set_alpha_last. reflexivity.
Qed.

(** A pen given as a text that is not empty: the pen is a new colour
    object of that name. *)
Lemma pen_text
    (sys self : RangeSliderStyle) (opt : QStyleOptionSlider)
    (h : heap) (s : string) (a : Q) :
  (pen_attr (currentColorGroup opt) self
   ||| pen_attr (currentColorGroup opt) sys) = Some (VStr s) ->
  s <> "" ->
  (tick_bar_alpha self ||| tick_bar_alpha sys) = Some a ->
  pen sys self opt h
  = (Ok (PenOf (Some (VObj (List.length h)))),
     (h ++ [ObjColor (mkQColor s (drawn_alpha opt a))])%list).
Proof.
  intros Hv Hs Ha. unfold pen, drawn_alpha. rewrite Hv, Ha.
  assert (Ht : truth (Some (VStr s)) = true).
  { destruct s; [contradiction|reflexivity]. }
  rewrite Ht. cbn [negb].
  destruct (tick_eqb (tickPosition opt) NoTicks); cbn [negb].
  - reflexivity.
  - unfold bind at 1. unfold bind at 1. unfold alloc, ret at 1.
    unfold bind. rewrite set_alpha_last. reflexivity.
Qed.

(** With an instance record that sets neither the fill of the colour
    group nor a tick-bar opacity, on each of the four presets the brush
    is a new colour object named by the fill of the preset, and it has
    the opacity of the preset exactly when ticks are drawn.  The objects
    that were in the store stay as they were. *)
Theorem brush_default_on_presets
    (sys self : RangeSliderStyle) (opt : QStyleOptionSlider) (h : heap) :
  In sys presets ->
  brush_attr (currentColorGroup opt) self = None ->
  tick_bar_alpha self = None ->
  exists name a,
    brush_attr (currentColorGroup opt) sys = Some (VStr name)
    /\ tick_bar_alpha sys = Some a
    /\ brush sys self opt h
       = (Ok (Some (VObj (List.length h))),
          (h ++ [ObjColor (mkQColor name (drawn_alpha opt a))])%list).
Proof.
  intros Hin Hb Ha. unfold presets in Hin. cbn [In] in Hin.
  destruct Hin as [<-|[<-|[<-|[<-|[]]]]];
    destruct (currentColorGroup opt) eqn:Ecg;
    eexists _, _; (split; [reflexivity|]); (split; [reflexivity|]);
    apply brush_text; rewrite ?Ecg, ?Hb, ?Ha; reflexivity.
Qed.

Lemma brush_default_on_presets_witness :
  exists name a,
    brush_attr Disabled BIG_SUR_STYLE = Some (VStr name)
    /\ tick_bar_alpha BIG_SUR_STYLE = Some a
    /\ brush BIG_SUR_STYLE unset_style (mkOpt Disabled Vertical TicksBelow) []
       = (Ok (Some (VObj 0%nat)),
          [ObjColor (mkQColor name
                       (drawn_alpha (mkOpt Disabled Vertical TicksBelow) a))]).
Proof.
  apply (brush_default_on_presets BIG_SUR_STYLE unset_style
           (mkOpt Disabled Vertical TicksBelow) []);
    [cbn; auto | reflexivity | reflexivity].
Defined.

(** With an instance record that sets neither the pen of the colour
    group nor a tick-bar opacity, on each of the four presets the pen is
    never [Qt.NoPen]: it is a new colour object named by the pen of the
    preset, with the opacity of the preset exactly when ticks are
    drawn. *)
Theorem pen_default_on_presets
    (sys self : RangeSliderStyle) (opt : QStyleOptionSlider) (h : heap) :
  In sys presets ->
  pen_attr (currentColorGroup opt) self = None ->
  tick_bar_alpha self = None ->
  exists name a,
    pen_attr (currentColorGroup opt) sys = Some (VStr name)
    /\ tick_bar_alpha sys = Some a
    /\ pen sys self opt h
       = (Ok (PenOf (Some (VObj (List.length h)))),
          (h ++ [ObjColor (mkQColor name (drawn_alpha opt a))])%list).
Proof.
  intros Hin Hb Ha. unfold presets in Hin. cbn [In] in Hin.
  destruct Hin as [<-|[<-|[<-|[<-|[]]]]];
    destruct (currentColorGroup opt) eqn:Ecg;
    eexists _, _; (split; [reflexivity|]); (split; [reflexivity|]);
    apply pen_text; rewrite ?Ecg, ?Hb, ?Ha; try reflexivity; discriminate.
Qed.

Lemma pen_default_on_presets_witness :
  exists name a,
    pen_attr Active LINUX_STYLE = Some (VStr name)
    /\ tick_bar_alpha LINUX_STYLE = Some a
    /\ pen LINUX_STYLE unset_style (mkOpt Active Horizontal NoTicks) []
       = (Ok (PenOf (Some (VObj 0%nat))),
          [ObjColor (mkQColor name
                       (drawn_alpha (mkOpt Active Horizontal NoTicks) a))]).
Proof.
  apply (pen_default_on_presets LINUX_STYLE unset_style
           (mkOpt Active Horizontal NoTicks) []);
    [cbn; auto | reflexivity | reflexivity].
Defined.

(** When neither record has a value for the colour group (none, or the
    empty text), the pen is [Qt.NoPen] whatever the ticks, while the
    brush hands on the missing value without ticks and raises
    [AttributeError] with ticks: only [pen] tests the value before it
    uses it. *)
Theorem missing_pen_and_missing_fill
    (sys self : RangeSliderStyle) (opt : QStyleOptionSlider) (h : heap) :
  (truth (pen_attr (currentColorGroup opt) self
          ||| pen_attr (currentColorGroup opt) sys) = false ->
   pen sys self opt h = (Ok NoPen, h))
  /\ (brush_attr (currentColorGroup opt) self = None ->
      brush_attr (currentColorGroup opt) sys = None ->
      brush sys self opt h
      = (if tick_eqb (tickPosition opt) NoTicks
         then Ok None else Raise AttributeError, h)).
Proof.
  split.
  - intros H. unfold pen. now rewrite H.
  - intros Hs Hy. unfold brush. rewrite Hs, Hy.
    destruct (tick_eqb (tickPosition opt) NoTicks); reflexivity.
Qed.

Lemma missing_pen_and_missing_fill_witness :
  pen unset_style unset_style (mkOpt Active Horizontal TicksAbove) []
  = (Ok NoPen, [])
  /\ brush unset_style unset_style (mkOpt Active Horizontal TicksAbove) []
     = (Raise AttributeError, []).
Proof.
  split.
  - apply (proj1 (missing_pen_and_missing_fill unset_style unset_style
                    (mkOpt Active Horizontal TicksAbove) [])).
    reflexivity.
  - apply (proj2 (missing_pen_and_missing_fill unset_style unset_style
                    (mkOpt Active Horizontal TicksAbove) []));
      reflexivity.
Defined.

Lemma nth_error_store (l : loc) (o : qobject) (h : heap) :
  (l < List.length h)%nat -> nth_error (store l o h) l = Some o.
Proof.
  revert l. induction h as [|x h IH]; intros [|l] H; cbn in *; try lia; auto.
  apply IH. lia.
Qed.

(** The opacity sticks.  When the three fill fields hold one colour
    object, as the extraction leaves them, a call of [brush] with ticks
    sets the opacity on that very object; a later call without ticks, for
    any colour group, returns the same object, which still carries the
    opacity. *)
Theorem brush_opacity_sticks
    (sys self : RangeSliderStyle) (opt1 opt2 : QStyleOptionSlider)
    (h : heap) (l : loc) (c : QColor) (a : Q) :
  brush_active self = Some (VObj l) ->
  brush_inactive self = Some (VObj l) ->
  brush_disabled self = Some (VObj l) ->
  nth_error h l = Some (ObjColor c) ->
  (tick_bar_alpha self ||| tick_bar_alpha sys) = Some a ->
  tickPosition opt1 <> NoTicks ->
  tickPosition opt2 = NoTicks ->
  exists h',
    brush sys self opt1 h = (Ok (Some (VObj l)), h')
    /\ brush sys self opt2 h' = (Ok (Some (VObj l)), h')
    /\ nth_error h' l = Some (ObjColor (mkQColor (color_name c) (Some a))).
Proof.
  intros Ha Hi Hd Hl Halpha Ht1 Ht2.
  assert (Hv : forall cg, (brush_attr cg self ||| brush_attr cg sys)
                          = Some (VObj l)).
  { intros cg. destruct cg; cbn [brush_attr]; rewrite ?Ha, ?Hi, ?Hd;
      reflexivity. }
  exists (store l (ObjColor (mkQColor (color_name c) (Some a))) h).
  split; [|split].
  - unfold brush. rewrite Hv, Halpha.
    assert (Hn : tick_eqb (tickPosition opt1) NoTicks = false)
      by (destruct (tickPosition opt1); [contradiction|reflexivity..]).
    rewrite Hn. cbn [negb]. unfold bind, ret, setAlphaF. now rewrite Hl.
  - unfold brush. rewrite Hv, Ht2. reflexivity.
  - apply nth_error_store. apply nth_error_Some. congruence.
Qed.

Lemma brush_opacity_sticks_witness :
  exists h',
    brush LINUX_STYLE
      (mkStyle (Some (VObj 0%nat)) (Some (VObj 0%nat)) (Some (VObj 0%nat))
               None None None None None None None None None true)
      (mkOpt Active Horizontal TicksAbove)
      [ObjColor (mkQColor "#ff0000" None)]
    = (Ok (Some (VObj 0%nat)), h')
    /\ brush LINUX_STYLE
         (mkStyle (Some (VObj 0%nat)) (Some (VObj 0%nat)) (Some (VObj 0%nat))
                  None None None None None None None None None true)
         (mkOpt Disabled Horizontal NoTicks) h'
       = (Ok (Some (VObj 0%nat)), h')
    /\ nth_error h' 0%nat
       = Some (ObjColor (mkQColor (color_name (mkQColor "#ff0000" None))
                                  (Some (3 # 10)%Q))).
Proof.
  apply (brush_opacity_sticks LINUX_STYLE _
           (mkOpt Active Horizontal TicksAbove)
           (mkOpt Disabled Horizontal NoTicks)
           [ObjColor (mkQColor "#ff0000" None)] 0%nat
           (mkQColor "#ff0000" None) (3 # 10)%Q);
    try reflexivity.
  discriminate.
Defined.

Lemma select_on_darwin_witness :
  select_SYSTEM_STYLE "Darwin" ("12" ++ "." ++ "6.1") = Ok BIG_SUR_STYLE.
Proof.
  apply (select_on_darwin "12" "6.1");
    [discriminate | reflexivity | apply Nat.leb_le; reflexivity].
Defined.

(* ================================================================== *)
(** ** The text the extraction reads *)

Lemma parents_loop_all_but_top (ps : list string) :
  forall (p qss top : string),
    parents_loop p (ps ++ [top]) qss = join (rev ps) ++ p ++ qss.
Proof.
  induction ps as [|p1 ps IH]; intros p qss top; cbn [app parents_loop].
  - reflexivity.
  - rewrite IH. cbn [rev]. unfold join. rewrite fold_right_app.
    cbn [fold_right]. rewrite append_empty.
    generalize (rev ps). intros l.
    induction l as [|x l IHl]; cbn [fold_right].
    + reflexivity.
    + rewrite !append_assoc. now rewrite IHl.
Qed.

(** For a slider with parents, the text that is searched is the
    stylesheets of the parents except the topmost one, outermost first,
    then the slider's own stylesheet twice, all after the stylesheet of
    the application.  The stylesheet of the topmost ancestor is not part
    of it. *)
Theorem collected_stylesheet
    (own top : string) (ps : list string) :
  parents_loop own (ps ++ [top]) own = join (rev ps) ++ own ++ own.
Proof. apply parents_loop_all_but_top. Qed.

(** The extraction does not depend on the stylesheet of the topmost
    ancestor. *)
Theorem topmost_stylesheet_is_ignored
    (isValid : string -> bool) (print_match : groups -> result unit)
    (ps : list string) (top top' app_qss : string)
    (w : world) :
  update_styles_from_stylesheet isValid print_match (ps ++ [top]) app_qss w
  = update_styles_from_stylesheet isValid print_match (ps ++ [top']) app_qss w.
Proof.
  rewrite !update_unfold. cbv zeta.
  now rewrite !parents_loop_all_but_top.
Qed.

(* ================================================================== *)
(** ** Stylesheets without rules for the slider *)

Lemma starts_with_append (a b s : string) :
  Str.starts_with (a ++ b) s = true -> Str.starts_with a s = true.
Proof.
  revert s. induction a as [|x a IH]; intros [|y s]; cbn; auto.
  intros H. apply andb_true_iff in H. destruct H as [Hx Ha].
  now rewrite Hx, (IH s Ha).
Qed.

Lemma contains_append (a b s : string) :
  contains (a ++ b) s = true -> contains a s = true.
Proof.
  induction s as [|c s IH]; cbn [contains]; intros H;
    apply orb_true_iff in H; apply orb_true_iff; destruct H as [H|H].
  - left. now apply starts_with_append in H.
  - discriminate.
  - left. now apply starts_with_append in H.
  - right. auto.
Qed.

(** A pattern that starts with a fixed text is only found in a text
    that contains it. *)
Lemma search_contains (l : string) (r : regex) (s : string) (gs : groups) :
  search (Cat (Lit l) r) s = Some gs -> contains l s = true.
Proof.
  induction s as [|c s IH]; cbn [search contains].
  - unfold match_. cbn [exec].
    destruct (Str.starts_with l ""); [reflexivity|discriminate].
  - unfold match_ at 1. cbn [exec].
    destruct (Str.starts_with l (String c s)); [reflexivity|].
    intros H. cbn. auto.
Qed.

(** On a collected stylesheet that does not contain the text Slider::
    (the empty one, say), the extraction finds nothing and raises
    nothing: all it does is to put [has_stylesheet] back to false.  The
    fills, the thicknesses, the stylesheet of the slider and the store
    are as before. *)
Theorem extraction_without_slider_rules
    (isValid : string -> bool) (print_match : groups -> result unit)
    (parents : list string) (app_qss : string)
    (w : world) :
  contains "Slider::"
    (app_qss ++ parents_loop (styleSheet (obj w)) parents (styleSheet (obj w)))
  = false ->
  update_styles_from_stylesheet isValid print_match parents app_qss w
  = (Ok tt, with_style (set_has_stylesheet false) w).
Proof.
  intros H. rewrite update_unfold. cbv zeta.
  set (qss := app_qss ++ _) in *.
  assert (Hc : search sub_page_pattern qss = None).
  { destruct (search sub_page_pattern qss) as [gs|] eqn:E; [|reflexivity].
    apply search_contains in E.
    apply (contains_append "Slider::" "sub-page") in E. congruence. }
  assert (Hg : forall o, search (groove_pattern (orient_name o)) qss = None).
  { intros o.
    destruct (search (groove_pattern (orient_name o)) qss) as [gs|] eqn:E;
      [|reflexivity].
    apply search_contains in E.
    apply (contains_append "Slider::" ("groove:" ++ orient_name o)) in E.
    congruence. }
  unfold find_bar_color, find_bar_size. rewrite Hc, !Hg. reflexivity.
Qed.

Lemma extraction_without_slider_rules_witness :
  update_styles_from_stylesheet hex_names quiet_stdout [] ""
    (mkWorld (mkSlider "QRangeSlider" ""
                (set_has_stylesheet true LINUX_STYLE)) [])
  = (Ok tt,
     with_style (set_has_stylesheet false)
       (mkWorld (mkSlider "QRangeSlider" ""
                   (set_has_stylesheet true LINUX_STYLE)) [])).
Proof.
  apply (extraction_without_slider_rules hex_names quiet_stdout [] ""
           (mkWorld (mkSlider "QRangeSlider" ""
                       (set_has_stylesheet true LINUX_STYLE)) [])).
  reflexivity.
Defined.

(* ================================================================== *)
(** ** The extraction and the accessors together *)

(** A thickness that the extraction stores is the thickness that the
    accessor returns, when it is not zero: with the groove block of an
    orientation found and a first declared thickness [q] other than zero,
    the thickness accessor on the record left behind returns [q] for that
    orientation, whatever the platform default. *)
Theorem extracted_thickness_is_returned
    (sys : RangeSliderStyle) (qss : string) (orient : Orientation)
    (dim : string) (gs : groups) (content : string) (q : Q) (rest : list Q)
    (w : world) (opt : QStyleOptionSlider) :
  search (groove_pattern (orient_name orient)) qss = Some gs ->
  group 0 gs = Some content ->
  declared dim (Str.splitlines content) = q :: rest ->
  ~ (q == 0)%Q ->
  orientation opt = orient ->
  thickness sys (_style (obj (snd (find_bar_size qss orient dim w)))) opt
  = Some q.
Proof.
  intros Hs Hg Hd Hq Ho.
  destruct (find_bar_size_run qss orient dim w) as [qs [Hrun Hqs]].
  rewrite (Hqs gs content Hs Hg), Hd in Hrun. cbn [rev] in Hrun.
  rewrite Hrun. cbn [snd with_style obj _style].
  destruct (apply_declarations_last orient (rev rest) q (_style (obj w)))
    as [Ht _].
  assert (Htruth : truth (Some q) = true).
  { change (truth (Some q)) with (negb (Qeq_bool q 0)).
    destruct (Qeq_bool q 0) eqn:E; [|reflexivity].
    apply Qeq_bool_iff in E. contradiction. }
  unfold thickness. rewrite Ho. subst orient.
  destruct (orientation opt); cbn [get_thickness] in Ht; rewrite Ht;
    unfold py_or; now rewrite Htruth.
Qed.

Lemma extracted_thickness_is_returned_witness :
  thickness CATALINA_STYLE
    (_style (obj (snd (find_bar_size two_heights Horizontal "height"
                         (fresh two_heights)))))
    (mkOpt Active Horizontal NoTicks)
  = Some 10%Q.
Proof.
  apply (extracted_thickness_is_returned CATALINA_STYLE two_heights
           Horizontal "height"
           [Some ("height: 10;" ++ newline ++ " height: 20; ")]
           ("height: 10;" ++ newline ++ " height: 20; ")
           10%Q [20%Q] (fresh two_heights)
           (mkOpt Active Horizontal NoTicks));
    try (vm_compute; reflexivity).
  intros H. discriminate H.
Defined.

(* ================================================================== *)
(** ** The extraction of the fill *)

Lemma find_bar_color_run
    (isValid : string -> bool) (print_match : groups -> result unit)
    (qss : string) (w : world)
    (orientation : option string) (text : string) :
  reads_fill qss orientation text ->
  find_bar_color isValid print_match qss w
  = match parse_color isValid print_match text (objects w) with
    | (Ok v, h') =>
        (Ok tt,
         mkWorld (mkSlider (class_name (obj w))
                    (qss ++ suppression_rule (class_name (obj w)) orientation)
                    (set_fill v (_style (obj w))))
                 h')
    | (Raise e, h') => (Raise e, mkWorld (obj w) h')
    end.
Proof.
  intros [gs [content [before [line [after [bgrd
           [Hs [Ho [Hg [Hl [Hb [Ht Hafter]]]]]]]]]]]].
  unfold find_bar_color. rewrite Hs, Hg, Hl, Ho.
  rewrite rev_app_distr. cbn [rev]. rewrite <- app_assoc. cbn [app].
  rewrite bar_color_loop_skip
    by (intros l Hin; apply Hafter; now apply in_rev).
  cbn [bar_color_loop]. rewrite Hb, Ht.
  unfold bind at 1. unfold on_heap at 1.
  destruct (parse_color isValid print_match text (objects w)) as [[v|e] h'];
    reflexivity.
Qed.

Lemma sizes_run (qss : string) (w1 : world) :
  exists qh qv,
    match find_bar_size qss Horizontal "height" w1 with
    | (Ok _, w2) => find_bar_size qss Vertical "width" w2
    | (Raise e, w2) => (Raise e, w2)
    end
    = (Ok tt,
       with_style (apply_declarations Vertical qv)
         (with_style (apply_declarations Horizontal qh) w1)).
Proof.
  destruct (find_bar_size_run qss Horizontal "height" w1) as [qh [Hh _]].
  rewrite Hh.
  destruct (find_bar_size_run qss Vertical "width"
              (with_style (apply_declarations Horizontal qh) w1))
    as [qv [Hv _]].
  rewrite Hv. eauto.
Qed.

Lemma update_with_fill
    (isValid : string -> bool) (print_match : groups -> result unit)
    (parents : list string) (app_qss : string)
    (w : world) (orientation : option string) (text : string)
    (v : value) (h' : heap) :
  let qss := collected_qss (styleSheet (obj w)) parents app_qss in
  reads_fill qss orientation text ->
  parse_color isValid print_match text (objects w) = (Ok v, h') ->
  exists qh qv,
    update_styles_from_stylesheet isValid print_match parents app_qss w
    = (Ok tt,
       with_style (apply_declarations Vertical qv)
         (with_style (apply_declarations Horizontal qh)
            (mkWorld
               (mkSlider (class_name (obj w))
                  (qss ++ suppression_rule (class_name (obj w)) orientation)
                  (set_fill v (set_has_stylesheet false (_style (obj w)))))
               h'))).
Proof.
  intros qss Hr Hp. rewrite update_unfold. cbv zeta.
  fold (collected_qss (styleSheet (obj w)) parents app_qss). fold qss.
  rewrite (find_bar_color_run isValid print_match qss _ orientation text Hr).
  cbn [with_style objects obj class_name _style]. rewrite Hp.
  apply sizes_run.
Qed.

(** When the fill that the extraction reads is a text that [parse_color]
    does not know (no valid colour name, no match of a gradient pattern),
    the whole extraction raises [AttributeError]: [has_stylesheet] is left
    false, no fill and no thickness is stored even if the stylesheet
    declares one, and the stylesheet of the slider is as before. *)
Theorem extraction_unrecognized_fill_raises
    (isValid : string -> bool) (print_match : groups -> result unit)
    (parents : list string) (app_qss : string)
    (w : world) (orientation : option string) (text : string) :
  reads_fill (collected_qss (styleSheet (obj w)) parents app_qss)
             orientation text ->
  isValid text = false ->
  match_ qlineargrad_pattern text = None ->
  match_ qradial_pattern text = None ->
  update_styles_from_stylesheet isValid print_match parents app_qss w
  = (Raise AttributeError,
     mkWorld (mkSlider (class_name (obj w)) (styleSheet (obj w))
                (set_has_stylesheet false (_style (obj w))))
             (objects w ++ [ObjColor (mkQColor text None)])%list).
Proof.
  intros Hr Hv Hl Hrad. rewrite update_unfold. cbv zeta.
  fold (collected_qss (styleSheet (obj w)) parents app_qss).
  rewrite (find_bar_color_run isValid print_match _ _ orientation text Hr).
  cbn [with_style objects obj class_name _style styleSheet].
  unfold parse_color, bind, alloc. now rewrite Hv, Hl, Hrad.
Qed.

Lemma extraction_unrecognized_fill_raises_witness :
  update_styles_from_stylesheet hex_names quiet_stdout [] "" (fresh image_fill)
  = (Raise AttributeError,
     mkWorld (mkSlider "QRangeSlider" image_fill
                (set_has_stylesheet false unset_style))
             [ObjColor (mkQColor "url(bar.png)" None)]).
Proof.
  apply (extraction_unrecognized_fill_raises hex_names quiet_stdout [] ""
           (fresh image_fill) (Some "") "url(bar.png)");
    try (vm_compute; reflexivity).
  exists [Some ""; Some "background: url(bar.png); "],
         "background: url(bar.png); ", [], "background: url(bar.png); ", [],
         [None; Some "url(bar.png)"].
  repeat split; try (vm_compute; reflexivity).
  intros l [].
Defined.

(** After an extraction that read a fill which [parse_color] took, the
    stylesheet of the slider is the collected text with one rule added at
    its end: a new line, the class name of the slider, the sub-page
    selector with the orientation of the block that was read, and a
    background of none. *)
Theorem suppression_rule_appended
    (isValid : string -> bool) (print_match : groups -> result unit)
    (parents : list string) (app_qss : string)
    (w : world) (orientation : option string) (text : string)
    (v : value) (h' : heap) :
  reads_fill (collected_qss (styleSheet (obj w)) parents app_qss)
             orientation text ->
  parse_color isValid print_match text (objects w) = (Ok v, h') ->
  styleSheet
    (obj (snd (update_styles_from_stylesheet isValid print_match parents app_qss w)))
  = collected_qss (styleSheet (obj w)) parents app_qss
    ++ suppression_rule (class_name (obj w)) orientation.
Proof.
  intros Hr Hp.
  destruct (update_with_fill isValid print_match parents app_qss w orientation text v h'
              Hr Hp) as [qh [qv Hrun]].
  rewrite Hrun. reflexivity.
Qed.

Lemma suppression_rule_appended_witness :
  styleSheet
    (obj (snd (update_styles_from_stylesheet hex_names quiet_stdout [] ""
                 (fresh two_fills))))
  = collected_qss (styleSheet (obj (fresh two_fills))) [] ""
    ++ suppression_rule (class_name (obj (fresh two_fills)))
         (Some "horizontal").
Proof.
  apply (suppression_rule_appended hex_names quiet_stdout [] "" (fresh two_fills)
           (Some "horizontal") "#222222" (VObj 0%nat)
           [ObjColor (mkQColor "#222222" None)]);
    [|vm_compute; reflexivity].
  exists [Some "horizontal";
          Some ("background-color: #111111;" ++ newline
                ++ " background-color: #222222; ")],
         ("background-color: #111111;" ++ newline
          ++ " background-color: #222222; "),
         ["background-color: #111111;"], " background-color: #222222; ", [],
         [Some "-color"; Some "#222222"].
  repeat split; try (vm_compute; reflexivity).
  intros l [].
Defined.

(** A fill that the extraction stores is the fill that is painted: after
    an extraction that read a fill which [parse_color] took, the brush
    accessor without ticks returns, for every colour group, the object
    that [parse_color] returned and leaves the store alone, and the
    offset accessor returns 0 for every orientation and tick position. *)
Theorem extracted_fill_is_returned
    (isValid : string -> bool) (print_match : groups -> result unit)
    (parents : list string) (app_qss : string)
    (w : world) (orientation : option string) (text : string)
    (v : value) (h' : heap) (sys : RangeSliderStyle)
    (opt : QStyleOptionSlider) :
  reads_fill (collected_qss (styleSheet (obj w)) parents app_qss)
             orientation text ->
  parse_color isValid print_match text (objects w) = (Ok v, h') ->
  let w' := snd (update_styles_from_stylesheet isValid print_match parents app_qss w) in
  objects w' = h'
  /\ offset sys (_style (obj w')) opt = Ok 0%Q
  /\ (tickPosition opt = NoTicks ->
      brush sys (_style (obj w')) opt (objects w') = (Ok (Some v), h')).
Proof.
  intros Hr Hp.
  destruct (update_with_fill isValid print_match parents app_qss w orientation text v h'
              Hr Hp) as [qh [qv Hrun]].
  cbv zeta. rewrite Hrun. cbn [snd with_style objects obj _style].
  set (s1 := set_fill v (set_has_stylesheet false (_style (obj w)))).
  destruct (apply_declarations_keeps Horizontal qh s1) as [Ha [Hi [Hd Hs]]].
  destruct (apply_declarations_keeps Vertical qv
              (apply_declarations Horizontal qh s1)) as [Ha' [Hi' [Hd' Hs']]].
  cbv zeta in *.
  set (s3 := apply_declarations Vertical qv
               (apply_declarations Horizontal qh s1)) in *.
  assert (Hst : has_stylesheet s3 = true) by (apply Hs', Hs; reflexivity).
  split; [reflexivity|]. split.
  - unfold offset. now rewrite Hst.
  - intros Ht.
    assert (Hl : exists l, v = VObj l).
    { apply (parse_color_returns_object isValid print_match text (objects w)).
      now rewrite Hp. }
    destruct Hl as [l ->].
    unfold brush. rewrite Ht.
    assert (Hattr : brush_attr (currentColorGroup opt) s3 = Some (VObj l)).
    { destruct (currentColorGroup opt); cbn [brush_attr];
        rewrite ?Ha', ?Hi', ?Hd', ?Ha, ?Hi, ?Hd; reflexivity. }
    rewrite Hattr. reflexivity.
Qed.

Lemma extracted_fill_is_returned_witness :
  objects (snd (update_styles_from_stylesheet hex_names quiet_stdout [] ""
                  (fresh scenario)))
  = [ObjColor (mkQColor "#ff0000" None)]
  /\ offset BIG_SUR_STYLE
       (_style (obj (snd (update_styles_from_stylesheet hex_names quiet_stdout [] ""
                            (fresh scenario)))))
       (mkOpt Inactive Horizontal NoTicks) = Ok 0%Q
  /\ (tickPosition (mkOpt Inactive Horizontal NoTicks) = NoTicks ->
      brush BIG_SUR_STYLE
        (_style (obj (snd (update_styles_from_stylesheet hex_names quiet_stdout [] ""
                             (fresh scenario)))))
        (mkOpt Inactive Horizontal NoTicks)
        (objects (snd (update_styles_from_stylesheet hex_names quiet_stdout [] ""
                         (fresh scenario))))
      = (Ok (Some (VObj 0%nat)), [ObjColor (mkQColor "#ff0000" None)])).
Proof.
  apply (extracted_fill_is_returned hex_names quiet_stdout [] "" (fresh scenario)
           (Some "horizontal") "#ff0000" (VObj 0%nat)
           [ObjColor (mkQColor "#ff0000" None)] BIG_SUR_STYLE
           (mkOpt Inactive Horizontal NoTicks));
    [|vm_compute; reflexivity].
  exists [Some "horizontal"; Some "background-color: #ff0000; "],
         "background-color: #ff0000; ", [], "background-color: #ff0000; ", [],
         [Some "-color"; Some "#ff0000"].
  repeat split; try (vm_compute; reflexivity).
  intros l [].
Defined.

(* ================================================================== *)
(** ** Every run of the extraction *)

Lemma background_last_group (line : string) (bgrd : groups) :
  search background_pattern line = Some bgrd ->
  exists text, last_group bgrd = Some text.
Proof.
  intros H. apply search_inv in H. destruct H as [s' H].
  apply match_inv in H. destruct H as [Hlen Hset].
  assert (S1 : is_set 1 bgrd) by (apply Hset; [reflexivity|cbn; lia]).
  cbn in Hlen. destruct bgrd as [|a [|b [|]]]; try discriminate Hlen.
  unfold is_set in S1. cbn in S1. cbn [last_group last].
  destruct b as [text|]; [eauto|contradiction].
Qed.

Lemma sub_page_content (qss : string) (gs : groups) :
  search sub_page_pattern qss = Some gs ->
  exists content, group 1 gs = Some content.
Proof.
  intros H. apply search_inv in H. destruct H as [s' H].
  apply match_inv in H. destruct H as [_ Hset].
  assert (S1 : is_set 1 gs) by (apply Hset; [reflexivity|cbn; lia]).
  unfold is_set in S1. unfold group.
  destruct (nth 1 gs None) as [content|]; [eauto|contradiction].
Qed.

(** The first loop either finds no fill and does nothing, or reads one
    fill and does what [parse_color] makes of it. *)
Lemma bar_color_loop_cases
    (isValid : string -> bool) (print_match : groups -> result unit)
    (qss : string) (orientation : option string)
    (lines : list string) (w : world) :
  bar_color_loop isValid print_match qss orientation lines w = (Ok tt, w)
  \/ exists text,
       bar_color_loop isValid print_match qss orientation lines w
       = match parse_color isValid print_match text (objects w) with
         | (Ok v, h') =>
             (Ok tt,
              mkWorld
                (mkSlider (class_name (obj w))
                   (qss ++ suppression_rule (class_name (obj w)) orientation)
                   (set_fill v (_style (obj w))))
                h')
         | (Raise e, h') => (Raise e, mkWorld (obj w) h')
         end.
Proof.
  induction lines as [|line lines IH]; cbn [bar_color_loop].
  - left. reflexivity.
  - destruct (search background_pattern line) as [bgrd|] eqn:E;
      [|exact IH].
    destruct (background_last_group line bgrd E) as [text Ht].
    right. exists text. rewrite Ht.
    unfold bind at 1. unfold on_heap at 1.
    destruct (parse_color isValid print_match text (objects w)) as [[v|e] h'];
      reflexivity.
Qed.

Lemma find_bar_color_cases
    (isValid : string -> bool) (print_match : groups -> result unit)
    (qss : string) (w : world) :
  find_bar_color isValid print_match qss w = (Ok tt, w)
  \/ exists orientation text,
       find_bar_color isValid print_match qss w
       = match parse_color isValid print_match text (objects w) with
         | (Ok v, h') =>
             (Ok tt,
              mkWorld
                (mkSlider (class_name (obj w))
                   (qss ++ suppression_rule (class_name (obj w)) orientation)
                   (set_fill v (_style (obj w))))
                h')
         | (Raise e, h') => (Raise e, mkWorld (obj w) h')
         end.
Proof.
  unfold find_bar_color.
  destruct (search sub_page_pattern qss) as [gs|] eqn:E;
    [|left; reflexivity].
  destruct (sub_page_content qss gs E) as [content Hc]. rewrite Hc.
  destruct (bar_color_loop_cases isValid print_match qss (group 0 gs)
              (rev (Str.splitlines content)) w) as [H|[text H]].
  - left. exact H.
  - right. exists (group 0 gs), text. exact H.
Qed.

Lemma apply_declarations_frame (orient : Orientation) (qs : list Q) :
  forall s : RangeSliderStyle,
    not_from_stylesheet (apply_declarations orient qs s)
    = not_from_stylesheet s.
Proof.
  unfold apply_declarations.
  induction qs as [|q qs IH]; intros s; cbn [fold_left]; [reflexivity|].
  rewrite IH. destruct orient; reflexivity.
Qed.

(** When the extraction raises, it is [parse_color] that raised, on the
    text of a fill that is no valid colour name: [AttributeError] for an
    unrecognized text, or what [print] raised for a text that matches the
    radial pattern.  The slider then has [has_stylesheet] false, its
    stylesheet and the rest of its style record are what they were, and
    the one object added to the store is the invalid colour made from the
    text of the fill.  The search for the thicknesses never raises. *)
Theorem extraction_raise_cases
    (isValid : string -> bool) (print_match : groups -> result unit)
    (parents : list string) (app_qss : string)
    (w w' : world) (e : exn) :
  update_styles_from_stylesheet isValid print_match parents app_qss w
  = (Raise e, w') ->
  styleSheet (obj w') = styleSheet (obj w)
  /\ _style (obj w') = set_has_stylesheet false (_style (obj w))
  /\ exists text,
       objects w' = (objects w ++ [ObjColor (mkQColor text None)])%list
       /\ isValid text = false
       /\ match_ qlineargrad_pattern text = None
       /\ ((e = AttributeError /\ match_ qradial_pattern text = None)
           \/ exists gs, match_ qradial_pattern text = Some gs
                         /\ print_match gs = Raise e).
Proof.
  rewrite update_unfold. cbv zeta.
  set (qss := app_qss ++ _).
  set (w0 := with_style (set_has_stylesheet false) w).
  destruct (find_bar_color_cases isValid print_match qss w0)
    as [H|[o [text H]]]; rewrite H.
  - destruct (sizes_run qss w0) as [qh [qv Hs]]. rewrite Hs. discriminate.
  - destruct (parse_color_outcome isValid print_match text (objects w0))
      as [[Hp [Hv [Hl Hr]]]
         |[[gs [e' [Hp [Hv [Hl [Hr Hpr]]]]]]|[l [new [Hp _]]]]];
      rewrite Hp.
    + intros [= <- <-]. cbn [obj objects with_style styleSheet _style].
      split; [reflexivity|]. split; [reflexivity|].
      exists text. split; [reflexivity|]. auto.
    + intros [= <- <-]. cbn [obj objects with_style styleSheet _style].
      split; [reflexivity|]. split; [reflexivity|].
      exists text. split; [reflexivity|]. split; [exact Hv|].
      split; [exact Hl|]. right. exists gs. auto.
    + match goal with
      | |- context [find_bar_size qss Horizontal "height" ?w1] =>
          destruct (sizes_run qss w1) as [qh [qv Hs]]; rewrite Hs
      end.
      discriminate.
Qed.

Lemma extraction_raise_cases_witness :
  styleSheet (obj (mkWorld (mkSlider "QRangeSlider" image_fill
                              (set_has_stylesheet false unset_style))
                     [ObjColor (mkQColor "url(bar.png)" None)]))
  = styleSheet (obj (fresh image_fill))
  /\ _style (obj (mkWorld (mkSlider "QRangeSlider" image_fill
                             (set_has_stylesheet false unset_style))
                    [ObjColor (mkQColor "url(bar.png)" None)]))
     = set_has_stylesheet false (_style (obj (fresh image_fill)))
  /\ exists text,
       objects (mkWorld (mkSlider "QRangeSlider" image_fill
                           (set_has_stylesheet false unset_style))
                  [ObjColor (mkQColor "url(bar.png)" None)])
       = (objects (fresh image_fill)
          ++ [ObjColor (mkQColor text None)])%list
       /\ hex_names text = false
       /\ match_ qlineargrad_pattern text = None
       /\ ((AttributeError = AttributeError
            /\ match_ qradial_pattern text = None)
           \/ exists gs, match_ qradial_pattern text = Some gs
                         /\ quiet_stdout gs = Raise AttributeError).
Proof.
  apply (extraction_raise_cases hex_names quiet_stdout [] ""
           (fresh image_fill)).
  vm_compute. reflexivity.
Defined.

(** What the extraction never touches, whether it returns or raises:
    the pens, the tick offset, the tick-bar opacity and the two offsets of
    the style record, and the class name of the slider; and the objects
    that were in the store are still there, at their places. *)
Theorem extraction_frame
    (isValid : string -> bool) (print_match : groups -> result unit)
    (parents : list string) (app_qss : string)
    (w : world) :
  let w' := snd (update_styles_from_stylesheet isValid print_match
                   parents app_qss w) in
  not_from_stylesheet (_style (obj w')) = not_from_stylesheet (_style (obj w))
  /\ class_name (obj w') = class_name (obj w)
  /\ exists new, objects w' = (objects w ++ new)%list.
Proof.
  rewrite update_unfold. cbv zeta.
  set (qss := app_qss ++ _).
  set (w0 := with_style (set_has_stylesheet false) w).
  destruct (find_bar_color_cases isValid print_match qss w0)
    as [H|[o [text H]]]; rewrite H.
  - destruct (sizes_run qss w0) as [qh [qv Hs]]. rewrite Hs.
    cbn [snd with_style obj _style class_name objects].
    rewrite !apply_declarations_frame.
    repeat split. exists []. now rewrite app_nil_r.
  - destruct (parse_color_outcome isValid print_match text (objects w0))
      as [[Hp _]|[[gs [e [Hp _]]]|[l [new [Hp _]]]]]; rewrite Hp.
    + cbn. repeat split. eauto.
    + cbn. repeat split. eauto.
    + match goal with
      | |- context [find_bar_size qss Horizontal "height" ?w1] =>
          destruct (sizes_run qss w1) as [qh [qv Hs]]; rewrite Hs
      end.
      cbn [snd with_style obj _style class_name objects].
      rewrite !apply_declarations_frame.
      repeat split. eauto.
Qed.

(* ================================================================== *)
(** ** The accessors on the platform that was selected *)

(** Whatever platform the selection settles on, the four accessors work
    on a wholly unset instance record: the thickness is a positive number,
    the offset is a number, and the brush and the pen are new colour
    objects, for every colour group, orientation and tick position. *)
Theorem accessors_on_selected_platform
    (SYSTEM mac_ver : string) (sys : RangeSliderStyle)
    (opt : QStyleOptionSlider) (h : heap) :
  select_SYSTEM_STYLE SYSTEM mac_ver = Ok sys ->
  (exists q, thickness sys unset_style opt = Some q /\ (0 < q)%Q)
  /\ (exists r, offset sys unset_style opt = Ok r)
  /\ (exists c,
        brush sys unset_style opt h
        = (Ok (Some (VObj (List.length h))), (h ++ [ObjColor c])%list))
  /\ (exists c,
        pen sys unset_style opt h
        = (Ok (PenOf (Some (VObj (List.length h)))),
           (h ++ [ObjColor c])%list)).
Proof.
  intros Hsel. apply selected_is_preset in Hsel.
  unfold presets in Hsel. cbn [In] in Hsel.
  destruct opt as [cg o tp].
  destruct Hsel as [<-|[<-|[<-|[<-|[]]]]]; (split; [|split; [|split]]).
  all: try (destruct o; cbn; eexists; split; reflexivity).
  all: try (destruct o, tp; cbn; eexists; reflexivity).
  all: try (destruct cg; eexists; apply brush_text; reflexivity).
  all: destruct cg; eexists; apply pen_text;
         try reflexivity; discriminate.
Qed.

Lemma accessors_on_selected_platform_witness :
  (exists q, thickness LINUX_STYLE unset_style
               (mkOpt Active Vertical TicksBothSides) = Some q /\ (0 < q)%Q)
  /\ (exists r, offset LINUX_STYLE unset_style
                  (mkOpt Active Vertical TicksBothSides) = Ok r)
  /\ (exists c,
        brush LINUX_STYLE unset_style (mkOpt Active Vertical TicksBothSides) []
        = (Ok (Some (VObj (List.length (@nil qobject)))),
           ([] ++ [ObjColor c])%list))
  /\ (exists c,
        pen LINUX_STYLE unset_style (mkOpt Active Vertical TicksBothSides) []
        = (Ok (PenOf (Some (VObj (List.length (@nil qobject))))),
           ([] ++ [ObjColor c])%list)).
Proof.
  apply (accessors_on_selected_platform "Linux" "" LINUX_STYLE
           (mkOpt Active Vertical TicksBothSides) []).
  reflexivity.
Defined.

(* ================================================================== *)
(** ** Fields that hold zero *)

Lemma zero_is_falsy (z : Q) : (z == 0)%Q -> Qeq_bool z 0 = true.
Proof. intros H. now apply Qeq_bool_iff. Qed.

(** C10.  A numeric field of the instance record that holds zero is read
    as an unset one, and the platform default is used in its place.
    - Thickness: with a horizontal or vertical thickness of zero the
      accessor returns the thickness of the platform default, as for the
      unset field.
    - Offset: with an offset or a tick offset of zero the accessor
      returns what it returns for the unset field; without a stylesheet
      and without ticks that is the offset of the platform default (0
      when the platform has none or has zero), and with ticks above or
      below the tick offset added or subtracted is the one of the
      platform default.
    - Brush: with a tick-bar opacity of zero the accessor does what it
      does for the unset field, on every store; with ticks drawn the
      opacity given to the colour, made from a text or held as an
      object, is the one of the platform default. *)
Theorem zero_field_reads_as_unset
    (sys : RangeSliderStyle) (opt : QStyleOptionSlider)
    (ba bi bd pa pi pd : option value) (vt ht to tba vo ho : option Q)
    (hs : bool) (z : Q) :
  (z == 0)%Q ->
  (orientation opt = Horizontal ->
   thickness sys (mkStyle ba bi bd pa pi pd vt (Some z) to tba vo ho hs) opt
   = horizontal_thickness sys)
  /\ (orientation opt = Vertical ->
      thickness sys (mkStyle ba bi bd pa pi pd (Some z) ht to tba vo ho hs) opt
      = vertical_thickness sys)
  /\ thickness sys (mkStyle ba bi bd pa pi pd vt (Some z) to tba vo ho hs) opt
     = thickness sys (mkStyle ba bi bd pa pi pd vt None to tba vo ho hs) opt
  /\ thickness sys (mkStyle ba bi bd pa pi pd (Some z) ht to tba vo ho hs) opt
     = thickness sys (mkStyle ba bi bd pa pi pd None ht to tba vo ho hs) opt
  /\ offset sys (mkStyle ba bi bd pa pi pd vt ht to tba vo (Some z) hs) opt
     = offset sys (mkStyle ba bi bd pa pi pd vt ht to tba vo None hs) opt
  /\ offset sys (mkStyle ba bi bd pa pi pd vt ht to tba (Some z) ho hs) opt
     = offset sys (mkStyle ba bi bd pa pi pd vt ht to tba None ho hs) opt
  /\ offset sys (mkStyle ba bi bd pa pi pd vt ht (Some z) tba vo ho hs) opt
     = offset sys (mkStyle ba bi bd pa pi pd vt ht None tba vo ho hs) opt
  /\ (forall h : heap,
      brush sys (mkStyle ba bi bd pa pi pd vt ht to (Some z) vo ho hs) opt h
      = brush sys (mkStyle ba bi bd pa pi pd vt ht to None vo ho hs) opt h)
  /\ (orientation opt = Horizontal -> tickPosition opt = NoTicks ->
      offset sys (mkStyle ba bi bd pa pi pd vt ht to tba vo (Some z) false)
        opt
      = Ok (0 + else_ (h_offset sys) 0)%Q)
  /\ (orientation opt = Vertical -> tickPosition opt = NoTicks ->
      offset sys (mkStyle ba bi bd pa pi pd vt ht to tba (Some z) ho false)
        opt
      = Ok (0 + else_ (v_offset sys) 0)%Q)
  /\ (forall t : Q, tick_offset sys = Some t ->
      tickPosition opt = TicksAbove ->
      offset sys (mkStyle ba bi bd pa pi pd vt ht (Some z) tba vo ho false)
        opt
      = Ok (0 + base_offset sys
                  (mkStyle ba bi bd pa pi pd vt ht (Some z) tba vo ho false)
                  (orientation opt)
            + t)%Q)
  /\ (forall t : Q, tick_offset sys = Some t ->
      tickPosition opt = TicksBelow ->
      offset sys (mkStyle ba bi bd pa pi pd vt ht (Some z) tba vo ho false)
        opt
      = Ok (0 + base_offset sys
                  (mkStyle ba bi bd pa pi pd vt ht (Some z) tba vo ho false)
                  (orientation opt)
            - t)%Q)
  /\ (forall (h : heap) (s : string) (a : Q),
      (brush_attr (currentColorGroup opt)
         (mkStyle ba bi bd pa pi pd vt ht to (Some z) vo ho hs)
       ||| brush_attr (currentColorGroup opt) sys) = Some (VStr s) ->
      tick_bar_alpha sys = Some a ->
      tickPosition opt <> NoTicks ->
      brush sys (mkStyle ba bi bd pa pi pd vt ht to (Some z) vo ho hs) opt h
      = (Ok (Some (VObj (List.length h))),
         (h ++ [ObjColor (mkQColor s (Some a))])%list))
  /\ (forall (h : heap) (l : loc) (c : QColor) (a : Q),
      (brush_attr (currentColorGroup opt)
         (mkStyle ba bi bd pa pi pd vt ht to (Some z) vo ho hs)
       ||| brush_attr (currentColorGroup opt) sys) = Some (VObj l) ->
      nth_error h l = Some (ObjColor c) ->
      tick_bar_alpha sys = Some a ->
      tickPosition opt <> NoTicks ->
      brush sys (mkStyle ba bi bd pa pi pd vt ht to (Some z) vo ho hs) opt h
      = (Ok (Some (VObj l)),
         store l (ObjColor (mkQColor (color_name c) (Some a))) h)).
Proof.
  intros Hz.
  pose proof (or_zero_field z) as E.
  pose proof (zero_is_falsy z Hz) as Hq.
  repeat match goal with |- _ /\ _ => split end.
  - intros H. unfold thickness. rewrite H. cbn [horizontal_thickness].
    rewrite E by assumption. reflexivity.
  - intros H. unfold thickness. rewrite H. cbn [vertical_thickness].
    rewrite E by assumption. reflexivity.
  - unfold thickness. cbn [horizontal_thickness vertical_thickness].
    rewrite ?E by assumption. reflexivity.
  - unfold thickness. cbn [horizontal_thickness vertical_thickness].
    rewrite ?E by assumption. reflexivity.
  - unfold offset. cbn [h_offset v_offset tick_offset has_stylesheet].
    rewrite ?E by assumption. reflexivity.
  - unfold offset. cbn [h_offset v_offset tick_offset has_stylesheet].
    rewrite ?E by assumption. reflexivity.
  - unfold offset. cbn [h_offset v_offset tick_offset has_stylesheet].
    rewrite ?E by assumption. reflexivity.
  - intros h. unfold brush. cbn [tick_bar_alpha brush_attr brush_active
      brush_inactive brush_disabled].
    rewrite ?E by assumption. reflexivity.
  - intros Ho Ht. unfold offset. rewrite Ho, Ht.
    cbn [h_offset has_stylesheet negb]. rewrite or_chain_else.
    cbn [else_ num_add]. rewrite Hq. reflexivity.
  - intros Ho Ht. unfold offset. rewrite Ho, Ht.
    cbn [v_offset has_stylesheet negb]. rewrite or_chain_else.
    cbn [else_ num_add]. rewrite Hq. reflexivity.
  - intros t Hsys Ht. unfold offset. rewrite Ht.
    cbn [h_offset v_offset tick_offset has_stylesheet negb].
    rewrite E by assumption. rewrite Hsys.
    destruct (orientation opt); rewrite or_chain_else; reflexivity.
  - intros t Hsys Ht. unfold offset. rewrite Ht.
    cbn [h_offset v_offset tick_offset has_stylesheet negb].
    rewrite E by assumption. rewrite Hsys.
    destruct (orientation opt); rewrite or_chain_else; reflexivity.
  - intros h s a Hv Ha Ht. apply brush_text_with_ticks; auto.
    cbn [tick_bar_alpha]. rewrite E by assumption. rewrite Ha. reflexivity.
  - intros h l c a Hv Hl Ha Ht. unfold brush. rewrite Hv.
    assert (Hn : tick_eqb (tickPosition opt) NoTicks = false)
      by (destruct (tickPosition opt); [contradiction|reflexivity..]).
    rewrite Hn. cbn [negb tick_bar_alpha]. rewrite E by assumption.
    rewrite Ha. unfold bind, ret, setAlphaF. rewrite Hl. reflexivity.
Qed.

Lemma zero_field_reads_as_unset_witness :
  thickness BIG_SUR_STYLE
    (mkStyle None None None None None None None (Some (0 # 7)%Q)
             None None None None false)
    (mkOpt Active Horizontal NoTicks)
  = Some 4%Q
  /\ offset BIG_SUR_STYLE
       (mkStyle None None None None None None None None
                None None None (Some (0 # 7)%Q) false)
       (mkOpt Active Horizontal NoTicks)
     = Ok (0 + else_ (h_offset BIG_SUR_STYLE) 0)%Q
  /\ offset CATALINA_STYLE
       (mkStyle None None None None None None None None
                (Some (0 # 7)%Q) None None None false)
       (mkOpt Active Horizontal TicksBelow)
     = Ok (0 + 0 - 4)%Q
  /\ brush BIG_SUR_STYLE
       (mkStyle None None None None None None None None
                None (Some (0 # 7)%Q) None None false)
       (mkOpt Active Horizontal TicksAbove) []
     = (Ok (Some (VObj 0%nat)),
        [ObjColor (mkQColor "#0A81FE" (Some (2 # 10)%Q))]).
Proof.
  split; [|split; [|split]].
  - refine (proj1
      (zero_field_reads_as_unset BIG_SUR_STYLE
         (mkOpt Active Horizontal NoTicks)
         None None None None None None None None None None None None
         false (0 # 7)%Q _) _); reflexivity.
  - refine (proj1 (proj2 (proj2 (proj2 (proj2 (proj2 (proj2 (proj2 (proj2
      (zero_field_reads_as_unset BIG_SUR_STYLE
         (mkOpt Active Horizontal NoTicks)
         None None None None None None None None None None None None
         false (0 # 7)%Q _))))))))) _ _); reflexivity.
  - refine (proj1 (proj2 (proj2 (proj2 (proj2 (proj2 (proj2 (proj2 (proj2
      (proj2 (proj2 (proj2
      (zero_field_reads_as_unset CATALINA_STYLE
         (mkOpt Active Horizontal TicksBelow)
         None None None None None None None None None None None None
         false (0 # 7)%Q _)))))))))))) 4%Q _ _); reflexivity.
  - refine (proj1 (proj2 (proj2 (proj2 (proj2 (proj2 (proj2 (proj2 (proj2
      (proj2 (proj2 (proj2 (proj2
      (zero_field_reads_as_unset BIG_SUR_STYLE
         (mkOpt Active Horizontal TicksAbove)
         None None None None None None None None None None None None
         false (0 # 7)%Q _))))))))))))) [] "#0A81FE" (2 # 10)%Q _ _ _);
      try reflexivity.
    discriminate.
Defined.
